(** * Entity resolution service: a shallow embedding and its properties

    Source: apps/entity-service/app/services/entity_resolution.py
    (class [EntityResolutionService]).

    Conventions of the embedding:
    - Python [float] scores are rationals ([Q]); equalities between scores
      are stated with [==].
    - Attribute values are the JSON-like values [PyVal]: [None], booleans,
      integers, strings and lists.  A list element is an integer, a string,
      a dict or a nested list; the service hashes and prints list elements
      and never looks inside one, so a dict or a nested list is kept as the
      text [repr] gives for it.
    - A coroutine is a computation in the monad [M]: it threads the [World]
      (entity store, cache store, uuid source, trace of downstream calls)
      and either returns a value or raises a Python exception.
    - Library code that is not part of the repository (fuzzywuzzy,
      scikit-learn, the sentence-transformers model, [repr], the iteration
      order of a [set]) is a field of the environment [Env].
    - Logging, timestamps and the expiry of cache entries are left out. *)

From Stdlib Require Import ZArith QArith Qminmax String Ascii List Sorted Lia.
From stdpp Require Import base option list gmap strings pretty.

Local Open Scope string_scope.
Local Open Scope list_scope.
Local Open Scope Z_scope.

(** ** Python values and built-ins *)

Inductive Atom : Type :=
| AInt (z : Z)
| AStr (s : string)
| ADict (text : string)
| AList (text : string).

Inductive PyVal : Type :=
| VNone
| VBool (b : bool)
| VInt (z : Z)
| VStr (s : string)
| VList (l : list Atom).

Module Py.

(** [bool(v)]: truth value testing. *)
Definition truthy (v : PyVal) : bool :=
  match v with
  | VNone => false
  | VBool b => b
  | VInt z => negb (z =? 0)
  | VStr s => negb (String.eqb s "")
  | VList l => match l with [] => false | _ => true end
  end.

(** [" ".join(parts)] and friends. *)
Fixpoint join (sep : string) (parts : list string) : string :=
  match parts with
  | [] => ""
  | [p] => p
  | p :: rest => p +:+ sep +:+ join sep rest
  end.

(** [hash(a)] is defined: a dict and a list have no hash. *)
Definition hashable (a : Atom) : bool :=
  match a with
  | AInt _ | AStr _ => true
  | ADict _ | AList _ => false
  end.

(** [str(v)], with [repr] of a string (used for list elements) supplied. *)
Definition repr_atom (repr_str : string → string) (a : Atom) : string :=
  match a with
  | AInt z => pretty z
  | AStr s => repr_str s
  | ADict text | AList text => text
  end.

Definition str (repr_str : string → string) (v : PyVal) : string :=
  match v with
  | VNone => "None"
  | VBool true => "True"
  | VBool false => "False"
  | VInt z => pretty z
  | VStr s => s
  | VList l => "[" +:+ join ", " (repr_atom repr_str <$> l) +:+ "]"
  end.

(** [s.lower()] on ASCII letters; other bytes are left alone. *)
Definition lower_ascii (c : ascii) : ascii :=
  let n := nat_of_ascii c in
  if ((65 <=? n) && (n <=? 90))%nat then ascii_of_nat (n + 32) else c.

Fixpoint lower (s : string) : string :=
  match s with
  | EmptyString => EmptyString
  | String c rest => String (lower_ascii c) (lower rest)
  end.

(** [len(s)]. *)
Definition len (s : string) : Z := Z.of_nat (String.length s).

(** ASCII whitespace as [str.split()] sees it. *)
Definition is_space (c : ascii) : bool :=
  let n := nat_of_ascii c in
  ((9 <=? n) && (n <=? 13) || (28 <=? n) && (n <=? 32))%nat.

(** [len(s.split())]: the number of maximal runs of non-whitespace. *)
Fixpoint count_words (in_word : bool) (s : string) : Z :=
  match s with
  | EmptyString => 0
  | String c rest =>
      if is_space c then count_words false rest
      else (if in_word then 0 else 1) + count_words true rest
  end.

Definition split_len (s : string) : Z := count_words false s.

(** [max(l, key=key)] on a non-empty list: the first maximal element. *)
Definition max_by {A} (key : A → Q) (x : A) (l : list A) : A :=
  fold_left (fun best y => if Qle_bool (key y) (key best) then best else y) l x.

(** [l.sort(key=key, reverse=True)]: stable, descending. *)
Fixpoint insert_desc {A} (key : A → Q) (x : A) (l : list A) : list A :=
  match l with
  | [] => [x]
  | y :: l' =>
      if Qle_bool (key y) (key x) then x :: y :: l'
      else y :: insert_desc key x l'
  end.

Definition sort_desc {A} (key : A → Q) (l : list A) : list A :=
  fold_right (insert_desc key) [] l.

(** A [for] loop whose body appends at most one item to a result list. *)
Definition for_append {A B} (body : A → option B) (l : list A) : list B :=
  fold_left (fun acc x => match body x with Some y => acc ++ [y] | None => acc end) l [].

(** A [dict] with string keys, in insertion order: [k in d], [d[k] = v]
    (an existing key keeps its position) and [list(d.values())]. *)
Fixpoint dict_get {V} (k : string) (d : list (string * V)) : option V :=
  match d with
  | [] => None
  | (k', v) :: d' => if String.eqb k k' then Some v else dict_get k d'
  end.

Fixpoint dict_set {V} (k : string) (v : V) (d : list (string * V)) : list (string * V) :=
  match d with
  | [] => [(k, v)]
  | (k', v') :: d' =>
      if String.eqb k k' then (k', v) :: d' else (k', v') :: dict_set k v d'
  end.

Definition dict_values {V} (d : list (string * V)) : list V := snd <$> d.

(** [enumerate(l)] *)
Definition enumerate {A} (l : list A) : list (nat * A) :=
  zip (seq 0 (length l)) l.

End Py.

(** ** Data model *)

Inductive MatchMethod : Type :=
| EXACT
| FUZZY
| SEMANTIC
| HYBRID
| ML_CLUSTERING.

Definition Vec : Type := list Q.

Record EntityCandidate : Type := mkCandidate {
  entity_id : string;
  name : string;
  entity_type : string;
  attributes : gmap string PyVal;
  embedding : option Vec;
  source_confidence : Q;
}.

(** Modelled from the spec: [EntityMatch] is declared in app/models/entity.py,
    which is not among the sources; its fields are the keyword arguments the
    service passes (spec section 3).  [match_details] is kept as a record of
    the keys the strategies write. *)
Inductive ScoreDetail : Type :=
| NoScore
| FuzzyScore (score : Z)
| SemanticSimilarity (sim : Q)
| ClusterInfo (cluster_id : Z) (cluster_size : Z).

Record MatchDetails : Type := mkDetails {
  matched_name : string;
  matched_attributes : gmap string PyVal;
  score_detail : ScoreDetail;
}.

Record EntityMatch : Type := mkMatch {
  candidate_entity_id : string;
  matched_entity_id : string;
  confidence_score : Q;
  match_method : MatchMethod;
  match_details : MatchDetails;
}.

(** A node of the entity store (timestamps are left out). *)
Record PersistedEntity : Type := mkEntity {
  pe_id : string;
  pe_name : string;
  pe_entity_type : string;
  pe_attributes : gmap string PyVal;
  pe_tenant_id : string;
  pe_cell_id : string;
}.

(** The request payload [entity_data]; [None] is an absent key. *)
Record EntityData : Type := mkData {
  ed_name : option string;
  ed_entity_type : option string;
  ed_attributes : option (gmap string PyVal);
  ed_confidence : option Q;
}.

(** What the embedding cache holds under one key: the entity dictionaries
    (id, name, attributes) and one vector per entity. *)
Record EntityInfo : Type := mkInfo {
  ei_id : string;
  ei_name : string;
  ei_attributes : gmap string PyVal;
}.

Record CacheData : Type := mkCache {
  cd_entities : list EntityInfo;
  cd_embeddings : list Vec;
}.

(** The exceptions the service meets.  The message of a [TypeError], which
    names the type of the element that has no hash, is left out. *)
Inductive Exn : Type :=
| KeyError (key : string)
| ValueError (msg : string)
| TypeError
| IndexError
| ProviderError
| CacheError
| SklearnError.

Inductive Outcome : Type :=
| Matched (entity : PersistedEntity) (confidence : Q) (method : MatchMethod)
    (alternatives : list EntityMatch)
| Created (entity : PersistedEntity) (confidence : Q)
    (alternatives : list EntityMatch)
| NoMatch (alternatives : list EntityMatch)
| Error (e : Exn).

(** ** The world outside the service *)

Inductive Call : Type :=
| StoreQuery
| StoreCreate
| StoreUpdate
| EncodeCall (texts : list string)
| CacheGet (key : string)
| CacheSet (key : string).

Record World : Type := mkWorld {
  w_store : list PersistedEntity;
  w_cache : gmap string CacheData;
  w_uuid : nat;
  w_calls : list Call;
}.

(** Code outside the repository.  [encode] and [cache_down] take the number
    of downstream calls made so far, so that a provider or cache can fail
    at one call and answer at another. *)
Record Env : Type := mkEnv {
  encode : nat → list string → option (list Vec);
  cosine_similarity : Vec → list Vec → option (list Q);
  fuzz_ratio : string → string → Z;
  fit_predict : list (list Z) → list Z;
  cache_down : nat → bool;
  repr_str : string → string;
  list_of_set : list Atom → list Atom;
  entity_types : list string;
}.

(** ** The monad of coroutines *)

Inductive Result (A : Type) : Type :=
| Ok (a : A)
| Raise (e : Exn).
Arguments Ok {A} a.
Arguments Raise {A} e.

Definition M (A : Type) : Type := World → Result A * World.

Definition ret {A} (a : A) : M A := fun w => (Ok a, w).
Definition raise {A} (e : Exn) : M A := fun w => (Raise e, w).
Definition bind {A B} (c : M A) (k : A → M B) : M B :=
  fun w => match c w with
           | (Ok a, w') => k a w'
           | (Raise e, w') => (Raise e, w')
           end.

Notation "x <~ c ;; k" := (bind c (fun x => k))
  (at level 100, c at next level, right associativity).

(** [try: c except Exception: handler] *)
Definition try_except {A} (c : M A) (handler : Exn → M A) : M A :=
  fun w => match c w with
           | (Ok a, w') => (Ok a, w')
           | (Raise e, w') => handler e w'
           end.

Definition of_option {A} (e : Exn) (o : option A) : M A :=
  match o with Some a => ret a | None => raise e end.

(** A computation that touches nothing of the world and may raise. *)
Definition of_result {A} (r : Result A) : M A := fun w => (r, w).

(** A monadic [for] loop accumulating a list. *)
Fixpoint for_each {A B} (body : list B → A → M (list B)) (l : list A)
    (acc : list B) : M (list B) :=
  match l with
  | [] => ret acc
  | x :: l' => acc' <~ body acc x ;; for_each body l' acc'
  end.

Definition logged (c : Call) (w : World) : World :=
  mkWorld (w_store w) (w_cache w) (w_uuid w) (w_calls w ++ [c]).

Definition log_call (c : Call) : M unit := fun w => (Ok tt, logged c w).

Definition calls_so_far : M nat := fun w => (Ok (length (w_calls w)), w).

(** [str(uuid.uuid4())]: a fresh identifier at every call. *)
Definition uuid_of (n : nat) : string := "uuid-" +:+ pretty n.

Definition uuid4 : M string :=
  fun w => (Ok (uuid_of (w_uuid w)),
            mkWorld (w_store w) (w_cache w) (S (w_uuid w)) (w_calls w)).

(** ** Collaborators reached through a client *)

(** Modelled from the spec: the entity store.  app/core/neo4j_client.py is
    not among the sources; a [MATCH (e:Entity {props}) ... LIMIT n] query
    returns the nodes whose properties equal the given ones, at most [n] of
    them and in the order of the store, [CREATE] adds a node and [SET]
    rewrites the matched nodes (spec section 6, entity store contract). *)
Definition run_match (props : PersistedEntity → bool) (limit : option nat)
    : M (list PersistedEntity) :=
  _ <~ log_call StoreQuery ;;
  fun w =>
    let rows := List.filter props (w_store w) in
    (Ok (match limit with Some n => take n rows | None => rows end), w).

Definition run_create (e : PersistedEntity) : M unit :=
  _ <~ log_call StoreCreate ;;
  fun w => (Ok tt, mkWorld (w_store w ++ [e]) (w_cache w) (w_uuid w) (w_calls w)).

Definition run_set_attributes (props : PersistedEntity → bool)
    (attrs : gmap string PyVal) : M unit :=
  _ <~ log_call StoreUpdate ;;
  fun w =>
    let upd e :=
      if props e
      then mkEntity (pe_id e) (pe_name e) (pe_entity_type e) attrs
             (pe_tenant_id e) (pe_cell_id e)
      else e in
    (Ok tt, mkWorld (upd <$> w_store w) (w_cache w) (w_uuid w) (w_calls w)).

Definition by_name_type_scope (nm ty tenant cell : string) (e : PersistedEntity) : bool :=
  String.eqb (pe_name e) nm && String.eqb (pe_entity_type e) ty
  && String.eqb (pe_tenant_id e) tenant && String.eqb (pe_cell_id e) cell.

Definition by_type_scope (ty tenant cell : string) (e : PersistedEntity) : bool :=
  String.eqb (pe_entity_type e) ty
  && String.eqb (pe_tenant_id e) tenant && String.eqb (pe_cell_id e) cell.

Definition by_id_scope (id tenant cell : string) (e : PersistedEntity) : bool :=
  String.eqb (pe_id e) id
  && String.eqb (pe_tenant_id e) tenant && String.eqb (pe_cell_id e) cell.

Section Service.

Context (env : Env).

(** Modelled from the spec: the cache store.  app/core/redis_client.py is not
    among the sources; [get] returns the value stored under the key or
    nothing, [setex] stores it, and either may raise when the cache is
    unreachable (spec section 6, cache store contract).  Expiry is real
    time and is left out: an entry stays until it is overwritten. *)
Definition redis_get (key : string) : M (option CacheData) :=
  n <~ calls_so_far ;;
  _ <~ log_call (CacheGet key) ;;
  if cache_down env n then raise CacheError
  else fun w => (Ok (w_cache w !! key), w).

Definition redis_setex (key : string) (ttl : Z) (data : CacheData) : M unit :=
  n <~ calls_so_far ;;
  _ <~ log_call (CacheSet key) ;;
  if cache_down env n then raise CacheError
  else fun w =>
    (Ok tt, mkWorld (w_store w) (<[key := data]> (w_cache w)) (w_uuid w) (w_calls w)).

(** [self.embedding_model.encode(texts)] *)
Definition model_encode (texts : list string) : M (list Vec) :=
  n <~ calls_so_far ;;
  _ <~ log_call (EncodeCall texts) ;;
  of_option ProviderError (encode env n texts).

(** Modelled from the spec: [EntityType(value)], the enum constructor.
    app/models/entity.py is not among the sources; the recognised values are
    [entity_types env], and any other value raises [ValueError] with the
    message Python's [Enum] gives. *)
Definition EntityType (value : string) : M string :=
  if existsb (String.eqb value) (entity_types env) then ret value
  else raise (ValueError (repr_str env value +:+ " is not a valid EntityType")).

(** ** The service *)

Definition similarity_threshold : Q := 85 # 100.
Definition fuzzy_threshold : Z := 80.

(** The [f"{attr}: {value}"] fragments of the important attributes that are
    present and truthy, in the order of [important_attrs]. *)
Definition attr_texts (important_attrs : list string) (attrs : gmap string PyVal)
    : list string :=
  Py.for_append
    (fun attr =>
       match attrs !! attr with
       | Some v =>
           if Py.truthy v then Some (attr +:+ ": " +:+ Py.str (repr_str env) v)
           else None
       | None => None
       end)
    important_attrs.

Definition text_with_attrs (important_attrs : list string) (nm : string)
    (attrs : gmap string PyVal) : string :=
  if negb (Nat.eqb (size attrs) 0) then
    match attr_texts important_attrs attrs with
    | [] => nm
    | texts => nm +:+ " " +:+ Py.join " " texts
    end
  else nm.

(** The text assembled in [_generate_embedding] (lines 392-404). *)
Definition text_for_embedding (nm : string) (attrs : gmap string PyVal) : string :=
  text_with_attrs
    ["address"; "email"; "phone"; "business_name"; "registration_number"]
    nm attrs.

(** The text assembled per record in [_generate_and_cache_embeddings]
    (lines 468-478). *)
Definition text_for_cache (nm : string) (attrs : gmap string PyVal) : string :=
  text_with_attrs ["address"; "email"; "phone"; "business_name"] nm attrs.

Definition _generate_embedding (candidate : EntityCandidate) : M Vec :=
  vs <~ model_encode [text_for_embedding (name candidate) (attributes candidate)] ;;
  of_option IndexError (head vs).

Definition cache_key (ty tenant cell : string) : string :=
  "embeddings:" +:+ ty +:+ ":" +:+ tenant +:+ ":" +:+ cell.

Definition _generate_and_cache_embeddings (ty tenant cell : string) : M CacheData :=
  result <~ run_match (by_type_scope ty tenant cell) (Some 1000%nat) ;;
  match result with
  | [] => ret (mkCache [] [])
  | _ =>
      let entities :=
        (fun r => mkInfo (pe_id r) (pe_name r) (pe_attributes r)) <$> result in
      let texts := (fun r => text_for_cache (pe_name r) (pe_attributes r)) <$> result in
      embeddings <~ model_encode texts ;;
      _ <~ try_except
             (redis_setex (cache_key ty tenant cell) 3600 (mkCache entities embeddings))
             (fun _ => ret tt) ;;
      ret (mkCache entities embeddings)
  end.

Definition _get_cached_embeddings (ty tenant cell : string) : M CacheData :=
  cached <~ try_except (redis_get (cache_key ty tenant cell)) (fun _ => ret None) ;;
  match cached with
  | Some data => ret data
  | None => _generate_and_cache_embeddings ty tenant cell
  end.

Definition details_of (nm : string) (attrs : gmap string PyVal) (d : ScoreDetail)
    : MatchDetails :=
  mkDetails nm attrs d.

Definition _exact_match (candidate : EntityCandidate) (tenant cell : string)
    : M (list EntityMatch) :=
  result <~ run_match
              (by_name_type_scope (name candidate) (entity_type candidate) tenant cell)
              (Some 10%nat) ;;
  ret (Py.for_append
         (fun record =>
            Some (mkMatch (entity_id candidate) (pe_id record) 1 EXACT
                    (details_of (pe_name record) (pe_attributes record) NoScore)))
         result).

(** The body of the loop of [_fuzzy_match] for one record. *)
Definition fuzzy_record (candidate : EntityCandidate) (record : PersistedEntity)
    : option EntityMatch :=
  let similarity :=
    fuzz_ratio env (Py.lower (name candidate)) (Py.lower (pe_name record)) in
  if fuzzy_threshold <=? similarity then
    let confidence := (inject_Z similarity / 100)%Q in
    Some (mkMatch (entity_id candidate) (pe_id record) confidence FUZZY
            (details_of (pe_name record) (pe_attributes record) (FuzzyScore similarity)))
  else None.

Definition _fuzzy_match (candidate : EntityCandidate) (tenant cell : string)
    : M (list EntityMatch) :=
  result <~ run_match (by_type_scope (entity_type candidate) tenant cell)
              (Some 100%nat) ;;
  ret (Py.for_append (fuzzy_record candidate) result).

Definition _semantic_match (candidate : EntityCandidate) (tenant cell : string)
    : M (list EntityMatch) :=
  match embedding candidate with
  | None => ret []
  | Some emb =>
      cached <~ _get_cached_embeddings (entity_type candidate) tenant cell ;;
      (* [if not cached_embeddings]: a dict with two keys is never falsy *)
      similarities <~ of_option SklearnError
                        (cosine_similarity env emb (cd_embeddings cached)) ;;
      for_each
        (fun matches '(i, similarity) =>
           if Qle_bool similarity_threshold similarity then
             entity_info <~ of_option IndexError (cd_entities cached !! i) ;;
             ret (matches ++
                  [mkMatch (entity_id candidate) (ei_id entity_info) similarity SEMANTIC
                     (details_of (ei_name entity_info) (ei_attributes entity_info)
                        (SemanticSimilarity similarity))])
           else ret matches)
        (Py.enumerate similarities) []
  end.

Definition has_attr (attrs : gmap string PyVal) (key : string) : Z :=
  match attrs !! key with
  | Some v => if Py.truthy v then 1 else 0
  | None => 0
  end.

Definition _extract_features (nm : string) (attrs : gmap string PyVal) : list Z :=
  [Py.len nm; Py.split_len nm;
   has_attr attrs "email"; has_attr attrs "phone"; has_attr attrs "address";
   Z.of_nat (size attrs)].

Definition _get_entities_for_clustering (ty tenant cell : string)
    : M (list PersistedEntity) :=
  run_match (by_type_scope ty tenant cell) (Some 500%nat).

(** [np.where(cluster_labels == c)[0]] *)
Definition where_eq (labels : list Z) (c : Z) : list nat :=
  fst <$> List.filter (fun p => snd p =? c) (Py.enumerate labels).

Definition cluster_confidence (cluster_size : Z) : Q :=
  Qmin (9 # 10) ((5 # 10) + (inject_Z cluster_size - 2) * (1 # 10)).

(** The feature matrix of [_ml_clustering_match]: one row per stored
    entity, then the row of the candidate. *)
Definition clustering_features (candidate : EntityCandidate)
    (entities_data : list PersistedEntity) : list (list Z) :=
  ((fun e => _extract_features (pe_name e) (pe_attributes e)) <$> entities_data)
  ++ [_extract_features (name candidate) (attributes candidate)].

Definition _ml_clustering_match (candidate : EntityCandidate) (tenant cell : string)
    : M (list EntityMatch) :=
  entities_data <~ _get_entities_for_clustering (entity_type candidate) tenant cell ;;
  if (length entities_data <? 3)%nat then ret []
  else
    let features := clustering_features candidate entities_data in
    let entity_ids := (pe_id <$> entities_data) ++ [entity_id candidate] in
    let cluster_labels := fit_predict env features in
    candidate_cluster <~ of_option IndexError (last cluster_labels) ;;
    if negb (candidate_cluster =? -1) then
      let cluster_indices := where_eq cluster_labels candidate_cluster in
      for_each
        (fun matches idx =>
           id <~ of_option IndexError (entity_ids !! idx) ;;
           entity_data <~ of_option IndexError (entities_data !! idx) ;;
           let cluster_size := Z.of_nat (length cluster_indices) in
           let confidence := cluster_confidence cluster_size in
           ret (matches ++
                [mkMatch (entity_id candidate) id confidence ML_CLUSTERING
                   (details_of (pe_name entity_data) (pe_attributes entity_data)
                      (ClusterInfo candidate_cluster cluster_size))]))
        (removelast cluster_indices) []
    else ret [].

(** The body of the loop of [_deduplicate_matches]. *)
Definition dedup_step (d : list (string * EntityMatch)) (m : EntityMatch)
    : list (string * EntityMatch) :=
  match Py.dict_get (matched_entity_id m) d with
  | None => Py.dict_set (matched_entity_id m) m d
  | Some kept =>
      if Qle_bool (confidence_score m) (confidence_score kept) then d
      else Py.dict_set (matched_entity_id m) m d
  end.

Definition _deduplicate_matches (matches : list EntityMatch) : list EntityMatch :=
  let entity_matches := fold_left dedup_step matches [] in
  Py.dict_values entity_matches.

Definition _find_matches (candidate : EntityCandidate) (tenant cell : string)
    (method : MatchMethod) : M (list EntityMatch) :=
  matches <~
    match method with
    | EXACT => _exact_match candidate tenant cell
    | FUZZY => _fuzzy_match candidate tenant cell
    | SEMANTIC => _semantic_match candidate tenant cell
    | HYBRID =>
        exact_matches <~ _exact_match candidate tenant cell ;;
        fuzzy_matches <~ _fuzzy_match candidate tenant cell ;;
        semantic_matches <~ _semantic_match candidate tenant cell ;;
        let all_matches := exact_matches ++ fuzzy_matches ++ semantic_matches in
        ret (_deduplicate_matches all_matches)
    | ML_CLUSTERING => _ml_clustering_match candidate tenant cell
    end ;;
  ret (Py.sort_desc confidence_score matches).

Definition _create_entity (candidate : EntityCandidate) (tenant cell : string)
    : M PersistedEntity :=
  id <~ uuid4 ;;
  let e := mkEntity id (name candidate) (entity_type candidate)
             (attributes candidate) tenant cell in
  _ <~ run_create e ;;
  ret e.

(** [list(set(l))]: building the set hashes every element of [l], and
    raises [TypeError] when one of them is a dict or a list. *)
Definition list_set (l : list Atom) : Result (list Atom) :=
  if forallb Py.hashable l then Ok (list_of_set env l) else Raise TypeError.

(** One iteration of the attribute loop of [_merge_entity_data]
    (lines 647-653). *)
Definition merge_key (key : string) (value : PyVal) (merged : gmap string PyVal)
    : Result (gmap string PyVal) :=
  match merged !! key with
  | None => Ok (<[key := value]> merged)
  | Some existing =>
      if negb (Py.truthy existing) then Ok (<[key := value]> merged)
      else
        match value, existing with
        | VList new_list, VList existing_list =>
            match list_set (existing_list ++ new_list) with
            | Ok union => Ok (<[key := VList union]> merged)
            | Raise e => Raise e
            end
        | _, _ => Ok merged
        end
  end.

(** The attribute loop (lines 646-653): an exception ends it. *)
Definition merge_attributes (existing new_attributes : gmap string PyVal)
    : Result (gmap string PyVal) :=
  map_fold
    (fun key value acc =>
       match acc with
       | Ok merged => merge_key key value merged
       | Raise e => Raise e
       end)
    (Ok existing) new_attributes.

Definition _merge_entity_data (id : string) (new_data : EntityData)
    (tenant cell : string) : M PersistedEntity :=
  result <~ run_match (by_id_scope id tenant cell) None ;;
  match result with
  | [] => raise (ValueError ("Entity " +:+ id +:+ " not found"))
  | existing_entity :: _ =>
      merged_attributes <~
        of_result (merge_attributes (pe_attributes existing_entity)
                     (default ∅ (ed_attributes new_data))) ;;
      _ <~ run_set_attributes (by_id_scope id tenant cell) merged_attributes ;;
      ret (mkEntity id (pe_name existing_entity) (pe_entity_type existing_entity)
             merged_attributes tenant cell)
  end.

Definition needs_embedding (method : MatchMethod) : bool :=
  match method with SEMANTIC | HYBRID => true | _ => false end.

(** Lines 96-107 of [resolve_entity]: the candidate and its embedding. *)
Definition build_candidate (entity_data : EntityData) (method : MatchMethod)
    : M EntityCandidate :=
  id <~ uuid4 ;;
  nm <~ of_option (KeyError "name") (ed_name entity_data) ;;
  raw_type <~ of_option (KeyError "entity_type") (ed_entity_type entity_data) ;;
  ty <~ EntityType raw_type ;;
  let candidate :=
    mkCandidate id nm ty (default ∅ (ed_attributes entity_data)) None
      (default 1%Q (ed_confidence entity_data)) in
  if needs_embedding method then
    emb <~ _generate_embedding candidate ;;
    ret (mkCandidate id nm ty (attributes candidate) (Some emb)
           (source_confidence candidate))
  else ret candidate.

(** Lines 134-151 of [resolve_entity]: no good match was found. *)
Definition no_good_match (candidate : EntityCandidate) (tenant cell : string)
    (create_if_not_found : bool) (matches : list EntityMatch) : M Outcome :=
  if create_if_not_found then
    new_entity <~ _create_entity candidate tenant cell ;;
    ret (Created new_entity 1 (take 5 matches))
  else ret (NoMatch (take 5 matches)).

(** Lines 112-151 of [resolve_entity]: the decision on the matches. *)
Definition decide_outcome (entity_data : EntityData) (candidate : EntityCandidate)
    (tenant cell : string) (create_if_not_found : bool)
    (matches : list EntityMatch) : M Outcome :=
  match matches with
  | [] => no_good_match candidate tenant cell create_if_not_found matches
  | first :: rest =>
      let best_match := Py.max_by confidence_score first rest in
      if Qle_bool similarity_threshold (confidence_score best_match) then
        updated_entity <~ _merge_entity_data (matched_entity_id best_match)
                            entity_data tenant cell ;;
        ret (Matched updated_entity (confidence_score best_match)
               (match_method best_match) (take 4 rest))
      else no_good_match candidate tenant cell create_if_not_found matches
  end.

(** The [try] block of [resolve_entity]. *)
Definition resolve_entity_try (entity_data : EntityData) (tenant cell : string)
    (method : MatchMethod) (create_if_not_found : bool) : M Outcome :=
  candidate <~ build_candidate entity_data method ;;
  matches <~ _find_matches candidate tenant cell method ;;
  decide_outcome entity_data candidate tenant cell create_if_not_found matches.

Definition resolve_entity (entity_data : EntityData) (tenant cell : string)
    (method : MatchMethod) (create_if_not_found : bool) (w : World)
    : Outcome * World :=
  match resolve_entity_try entity_data tenant cell method create_if_not_found w with
  | (Ok outcome, w') => (outcome, w')
  | (Raise e, w') => (Error e, w')
  end.

End Service.

(** ** Derived notions used in the statements *)

(** The aggregation step of the hybrid method: [_deduplicate_matches]
    (line 189) followed by the sort of [_find_matches] (line 195). *)
Definition aggregate (matches : list EntityMatch) : list EntityMatch :=
  Py.sort_desc confidence_score (_deduplicate_matches matches).

(** The match a left-to-right scan retains for entity [id]: the first one
    of highest confidence. *)
Definition retained_step (id : string) (acc : option EntityMatch) (m : EntityMatch)
    : option EntityMatch :=
  if String.eqb (matched_entity_id m) id then
    match acc with
    | None => Some m
    | Some kept =>
        if Qle_bool (confidence_score m) (confidence_score kept) then Some kept
        else Some m
    end
  else acc.

Definition retained (id : string) (matches : list EntityMatch) : option EntityMatch :=
  fold_left (retained_step id) matches None.

(** Descending order of a key. *)
Definition desc {A} (key : A → Q) (a b : A) : Prop := (key b <= key a)%Q.

(** The method preference of spec section 4.4, smaller is preferred:
    EXACT, SEMANTIC, FUZZY, CLUSTERING. *)
Definition spec_method_rank (m : MatchMethod) : nat :=
  match m with
  | EXACT => 0
  | SEMANTIC => 1
  | FUZZY => 2
  | ML_CLUSTERING => 3
  | HYBRID => 4
  end.

(** What one key of the merged attributes holds when the merge returns,
    from what the existing entity and the new data hold under it. *)
Definition merged_value (env : Env) (old new : option PyVal) : option PyVal :=
  match new with
  | None => old
  | Some value =>
      match old with
      | None => Some value
      | Some existing =>
          if negb (Py.truthy existing) then Some value
          else
            match value, existing with
            | VList new_list, VList existing_list =>
                Some (VList (list_of_set env (existing_list ++ new_list)))
            | _, _ => Some existing
            end
      end
  end.


(** The merge of one key takes the union of two lists of which one holds
    an element without a hash: both values are lists, the existing one is
    not empty, and a dict or a nested list is among their elements. *)
Definition unhashable_union (old new : option PyVal) : bool :=
  match old, new with
  | Some (VList existing_list), Some (VList new_list) =>
      Py.truthy (VList existing_list)
      && negb (forallb Py.hashable (existing_list ++ new_list))
  | _, _ => false
  end.

(** No list among the attributes holds a dict or a nested list. *)
Definition hashable_value (v : PyVal) : bool :=
  match v with
  | VList l => forallb Py.hashable l
  | _ => true
  end.

Definition hashable_lists (attrs : gmap string PyVal) : bool :=
  forallb (fun kv => hashable_value kv.2) (map_to_list attrs).

Definition hashable_store (w : World) : bool :=
  forallb (fun e => hashable_lists (pe_attributes e)) (w_store w).

(** The rows a scoped query sees: the nodes of the type in the scope, at
    most [limit] of them. *)
Definition scoped_rows (limit : nat) (ty tenant cell : string) (w : World)
    : list PersistedEntity :=
  take limit (List.filter (by_type_scope ty tenant cell) (w_store w)).

(** The store after [SET e.attributes] on the nodes of an id in a scope. *)
Definition with_attributes (id tenant cell : string) (attrs : gmap string PyVal)
    (e : PersistedEntity) : PersistedEntity :=
  if by_id_scope id tenant cell e
  then mkEntity (pe_id e) (pe_name e) (pe_entity_type e) attrs
         (pe_tenant_id e) (pe_cell_id e)
  else e.

(** A computation that never writes to the entity store. *)
Definition keeps_store {A} (c : M A) : Prop := ∀ w, w_store (c w).2 = w_store w.

(** ** Environments and sample data *)

Global Instance Atom_eq_dec : EqDecision Atom.
Proof. solve_decision. Defined.

(** A small environment to run the service in: the provider answers every
    call with a vector read off the text, cosine similarity is 1 on equal
    vectors and 0 otherwise (and rejects an empty matrix, as scikit-learn
    does), the string ratio is 100 on equal strings and 0 otherwise, and
    clustering puts every point in cluster 0. *)
Definition text_vec (text : string) : Vec :=
  (fun c => inject_Z (Z.of_nat (nat_of_ascii c))) <$> list_ascii_of_string text.

Fixpoint vec_eqb (u v : Vec) : bool :=
  match u, v with
  | [], [] => true
  | x :: u', y :: v' => Qeq_bool x y && vec_eqb u' v'
  | _, _ => false
  end.

Definition stub_cosine (v : Vec) (vs : list Vec) : option (list Q) :=
  match vs with
  | [] => None
  | _ => Some ((fun u => if vec_eqb v u then 1%Q else 0%Q) <$> vs)
  end.

Definition stub_env : Env := {|
  encode := fun _ texts => Some (text_vec <$> texts);
  cosine_similarity := stub_cosine;
  fuzz_ratio := fun a b => if String.eqb a b then 100 else 0;
  fit_predict := fun features => (fun _ => 0) <$> features;
  cache_down := fun _ => false;
  repr_str := fun s => "'" +:+ s +:+ "'";
  list_of_set := remove_dups;
  entity_types := ["person"; "organization"; "account"];
|}.

Definition empty_world : World := mkWorld [] ∅ 0 [].

(** A provider that answers the first downstream call and fails afterwards. *)
Definition flaky_env : Env := {|
  encode := fun n texts => if (n =? 0)%nat then Some (text_vec <$> texts) else None;
  cosine_similarity := stub_cosine;
  fuzz_ratio := fun a b => if String.eqb a b then 100 else 0;
  fit_predict := fun features => (fun _ => 0) <$> features;
  cache_down := fun _ => false;
  repr_str := fun s => "'" +:+ s +:+ "'";
  list_of_set := remove_dups;
  entity_types := ["person"; "organization"; "account"];
|}.

(** A fuzzy and a semantic match of the same entity, both of confidence 1. *)
Definition tie_fuzzy : EntityMatch :=
  mkMatch "c-1" "e-1" (inject_Z 100 / 100) FUZZY
    (mkDetails "Acme Corp" ∅ (FuzzyScore 100)).

Definition tie_semantic : EntityMatch :=
  mkMatch "c-1" "e-1" 1 SEMANTIC
    (mkDetails "Acme Corp" ∅ (SemanticSimilarity 1)).

(** An observation that carries a registration number. *)
Definition registered_attrs : gmap string PyVal :=
  {[ "registration_number" := VStr "RN-42" ]}.

(** A stored entity's attributes and the attributes of a new observation. *)
Definition stored_attrs : gmap string PyVal :=
  {[ "email" := VStr "info@acme.test"; "phone" := VStr "";
     "aliases" := VList [AStr "Acme"; AStr "ACME"] ]}.

Definition observed_attrs : gmap string PyVal :=
  {[ "email" := VStr "sales@acme.test"; "phone" := VStr "555-0100";
     "aliases" := VList [AStr "ACME"; AStr "Acme Inc"];
     "address" := VStr "1 Main St" ]}.





(** A store with one organisation whose name is in upper case, and an
    observation of the same name in mixed case. *)
Definition acme_upper : PersistedEntity :=
  mkEntity "e-1" "ACME CORP" "organization" ∅ "t-1" "c-1".

Definition acme_world : World := mkWorld [acme_upper] ∅ 0 [].

Definition acme_candidate : EntityCandidate :=
  mkCandidate "uuid-0" "Acme Corp" "organization" ∅ None 1.

(** The same store with a hundred other organisations of the scope in
    front of it. *)
Definition crowded_world : World :=
  mkWorld
    (((fun i => mkEntity ("f-" +:+ pretty i) "Filler Ltd" "organization" ∅ "t-1" "c-1")
      <$> seq 0 100) ++ [acme_upper])
    ∅ 0 [].

(** Three organisations of one scope. *)
Definition trio_world : World :=
  mkWorld
    [mkEntity "e-1" "Acme Corp" "organization" ∅ "t-1" "c-1";
     mkEntity "e-2" "Acme Ltd" "organization" ∅ "t-1" "c-1";
     mkEntity "e-3" "Apex Inc" "organization" ∅ "t-1" "c-1"]
    ∅ 0 [].

(** An observation of Acme Corp and a store that already holds it. *)
Definition acme_data : EntityData :=
  mkData (Some "Acme Corp") (Some "organization") None None.

Definition acme_stored : PersistedEntity :=
  mkEntity "e-1" "Acme Corp" "organization" ∅ "t-1" "c-1".

Definition acme_stored_world : World := mkWorld [acme_stored] ∅ 0 [].

(** An observation with an empty name. *)
Definition nameless_data : EntityData :=
  mkData (Some "") (Some "organization") None None.

(** The steps of a hybrid resolution of [acme_data] with the flaky provider. *)
Definition flaky_candidate : Result EntityCandidate * World :=
  build_candidate flaky_env acme_data HYBRID acme_stored_world.

Definition hybrid_candidate : EntityCandidate :=
  mkCandidate "uuid-0" "Acme Corp" "organization" ∅ (Some (text_vec "Acme Corp")) 1.

Definition flaky_exact : Result (list EntityMatch) * World :=
  _exact_match hybrid_candidate "t-1" "c-1" flaky_candidate.2.

Definition flaky_fuzzy : Result (list EntityMatch) * World :=
  _fuzzy_match flaky_env hybrid_candidate "t-1" "c-1" flaky_exact.2.

Definition flaky_semantic : Result (list EntityMatch) * World :=
  _semantic_match flaky_env hybrid_candidate "t-1" "c-1" flaky_fuzzy.2.




(** Two scopes whose cache keys are the same string: tenant [acme] with
    cell [eu:1], and tenant [acme:eu] with cell [1].  The store holds one
    organisation, created under the first scope. *)
Definition shared_key_world : World :=
  mkWorld [mkEntity "e-1" "Acme Corp" "organization" ∅ "acme" "eu:1"] ∅ 0 [].

Definition first_tenant_run : Outcome * World :=
  resolve_entity stub_env acme_data "acme" "eu:1" SEMANTIC false shared_key_world.

Definition second_tenant_candidate : Result EntityCandidate * World :=
  build_candidate stub_env acme_data SEMANTIC first_tenant_run.2.

Definition second_tenant_matches : Result (list EntityMatch) * World :=
  _semantic_match stub_env
    (mkCandidate "uuid-1" "Acme Corp" "organization" ∅ (Some (text_vec "Acme Corp")) 1)
    "acme:eu" "1" second_tenant_candidate.2.

(** ** Notions used for the rest of the service *)

(** A computation that leaves one component of the world as it is. *)
Definition preserves {X A} (component : World → X) (c : M A) : Prop :=
  ∀ w, component (c w).2 = component w.

(** The identity of a stored entity: everything but its attributes. *)
Definition same_identity (e e' : PersistedEntity) : Prop :=
  pe_id e' = pe_id e ∧ pe_name e' = pe_name e ∧
  pe_entity_type e' = pe_entity_type e ∧
  pe_tenant_id e' = pe_tenant_id e ∧ pe_cell_id e' = pe_cell_id e.

(** An observation that lacks its name, and two stored entities of
    different tenants that share an id. *)
Definition unnamed_data : EntityData :=
  mkData None (Some "organization") None None.

Definition two_tenant_world : World :=
  mkWorld
    [mkEntity "e-1" "Acme Corp" "organization" ∅ "t-1" "c-1";
     mkEntity "e-1" "Acme Corp" "organization" registered_attrs "t-2" "c-1"]
    ∅ 0 [].

(** The world after one [uuid4()] call. *)
Definition uuid_spent (w : World) : World :=
  mkWorld (w_store w) (w_cache w) (S (w_uuid w)) (w_calls w).

(** The match the exact strategy builds for one row. *)
Definition exact_match_of (candidate : EntityCandidate) (record : PersistedEntity)
    : EntityMatch :=
  mkMatch (entity_id candidate) (pe_id record) 1 EXACT
    (details_of (pe_name record) (pe_attributes record) NoScore).

(** The entity dictionaries and the texts the cache-miss path builds from
    the rows of a query. *)
Definition cache_infos (rows : list PersistedEntity) : list EntityInfo :=
  (fun r => mkInfo (pe_id r) (pe_name r) (pe_attributes r)) <$> rows.

Definition cache_texts (env : Env) (rows : list PersistedEntity) : list string :=
  (fun r => text_for_cache env (pe_name r) (pe_attributes r)) <$> rows.

(** The same environment with an unreachable cache. *)
Definition cacheless_env : Env := {|
  encode := fun _ texts => Some (text_vec <$> texts);
  cosine_similarity := stub_cosine;
  fuzz_ratio := fun a b => if String.eqb a b then 100 else 0;
  fit_predict := fun features => (fun _ => 0) <$> features;
  cache_down := fun _ => true;
  repr_str := fun s => "'" +:+ s +:+ "'";
  list_of_set := remove_dups;
  entity_types := ["person"; "organization"; "account"];
|}.

(** The world after Acme Corp, observed with attributes, was created in an
    empty store. *)
Definition created_world : World :=
  mkWorld [mkEntity "uuid-1" "Acme Corp" "organization" observed_attrs "t-1" "c-1"]
    ∅ 2 [StoreQuery; StoreCreate].

(** [":" in s] *)
Fixpoint has_colon (s : string) : bool :=
  match s with
  | EmptyString => false
  | String c rest => Ascii.eqb c ":"%char || has_colon rest
  end.

(** Every cache entry under the key of a colon-free type and tenant lists
    only entities that the store holds for that tenant and that cell. *)
Definition cache_scoped (w : World) : Prop :=
  ∀ ty tenant cell data,
    has_colon ty = false → has_colon tenant = false →
    w_cache w !! cache_key ty tenant cell = Some data →
    ∀ info, info ∈ cd_entities data →
      ∃ e, e ∈ w_store w ∧ pe_id e = ei_id info ∧
           pe_tenant_id e = tenant ∧ pe_cell_id e = cell.

(** One call of [resolve_entity], and the world after a series of calls. *)
Record Request : Type := mkRequest {
  rq_data : EntityData;
  rq_tenant : string;
  rq_cell : string;
  rq_method : MatchMethod;
  rq_create : bool;
}.

Definition serve (env : Env) (w : World) (rq : Request) : World :=
  (resolve_entity env (rq_data rq) (rq_tenant rq) (rq_cell rq) (rq_method rq)
     (rq_create rq) w).2.

Definition serve_all (env : Env) (requests : list Request) (w : World) : World :=
  fold_left (serve env) requests w.

(** The matches of Acme Corp that the strategies build in the worlds above
    and after the history below. *)
Definition acme_semantic_match : EntityMatch :=
  mkMatch "uuid-0" "e-1" 1 SEMANTIC
    (mkDetails "Acme Corp" ∅ (SemanticSimilarity 1)).

Definition history_semantic_match : EntityMatch :=
  mkMatch "uuid-0" "uuid-4" 1 SEMANTIC
    (mkDetails "Acme Corp" ∅ (SemanticSimilarity 1)).

Definition acme_exact_match : EntityMatch :=
  mkMatch "uuid-0" "e-1" 1 EXACT (mkDetails "Acme Corp" ∅ NoScore).

(** A short history over two tenants: Acme Corp is created for the first,
    resolved semantically there (which fills the cache), and created for the
    second. *)
Definition sample_history : list Request :=
  [mkRequest acme_data "t-1" "c-1" EXACT true;
   mkRequest acme_data "t-1" "c-1" SEMANTIC false;
   mkRequest acme_data "t-2" "c-1" EXACT true].

(** The collaborator a downstream call goes to. *)
Inductive CallKind : Type :=
| ToStore
| ToProvider
| ToCache.

Definition call_kind (c : Call) : CallKind :=
  match c with
  | StoreQuery | StoreCreate | StoreUpdate => ToStore
  | EncodeCall _ => ToProvider
  | CacheGet _ | CacheSet _ => ToCache
  end.

(** The number of calls of the selected kinds in a trace. *)
Definition count_calls (selected : CallKind → bool) (l : list Call) : nat :=
  length (List.filter (fun c => selected (call_kind c)) l).

Definition cost (selected : CallKind → bool) (k : CallKind) : nat :=
  if selected k then 1 else 0.

(** A computation that only appends to the trace, at most [n] calls of the
    selected kinds. *)
Definition emits_at_most {A} (selected : CallKind → bool) (n : nat) (c : M A) : Prop :=
  ∀ w, ∃ l, w_calls (c w).2 = w_calls w ++ l ∧ (count_calls selected l <= n)%nat.

Definition any_kind (k : CallKind) : bool := true.

Definition not_store (k : CallKind) : bool :=
  match k with ToStore => false | _ => true end.

Definition is_provider (k : CallKind) : bool :=
  match k with ToProvider => true | _ => false end.

(** Below the match threshold. *)
Definition below_threshold (m : EntityMatch) : Prop :=
  (confidence_score m < similarity_threshold)%Q.

(** A stored entity with attributes, an observation that adds to them, and
    the attributes after the merge. *)
Definition merged_attrs : gmap string PyVal :=
  {[ "email" := VStr "info@acme.test"; "phone" := VStr "555-0100";
     "aliases" := VList [AStr "Acme"; AStr "ACME"; AStr "Acme Inc"];
     "address" := VStr "1 Main St" ]}.

Definition attributed_world : World :=
  mkWorld [mkEntity "e-1" "Acme Corp" "organization" stored_attrs "t-1" "c-1"] ∅ 0 [].

Definition attributed_data : EntityData :=
  mkData (Some "Acme Corp") (Some "organization") (Some observed_attrs) None.

(** * Properties *)

(** ** Python built-ins *)

Lemma for_append_acc {A B} (body : A → option B) (l : list A) (acc : list B) :
  fold_left (fun acc x => match body x with Some y => acc ++ [y] | None => acc end) l acc
  = acc ++ omap body l.
Proof.
  revert acc. induction l as [|x l IH]; intros acc; simpl.
  - by rewrite app_nil_r.
  - rewrite IH. destruct (body x); simpl; [by rewrite <- app_assoc | done].
Qed.

Lemma for_append_omap {A B} (body : A → option B) (l : list A) :
  Py.for_append body l = omap body l.
Proof. unfold Py.for_append. by rewrite for_append_acc. Qed.

Lemma dict_get_set {V} (k k' : string) (v : V) (d : list (string * V)) :
  Py.dict_get k (Py.dict_set k' v d) = if String.eqb k k' then Some v else Py.dict_get k d.
Proof.
  induction d as [|[k0 v0] d IH]; simpl.
  - done.
  - destruct (String.eqb k' k0) eqn:E; simpl.
    + apply String.eqb_eq in E as ->. by destruct (String.eqb k k0).
    + destruct (String.eqb k k0) eqn:E0; [|done].
      apply String.eqb_eq in E0 as ->.
      destruct (String.eqb k0 k') eqn:E1; [|done].
      apply String.eqb_eq in E1 as ->. by rewrite String.eqb_refl in E.
Qed.

Lemma dict_set_keys {V} (k : string) (v : V) (d : list (string * V)) :
  (Py.dict_set k v d).*1
  = match Py.dict_get k d with Some _ => d.*1 | None => d.*1 ++ [k] end.
Proof.
  induction d as [|[k0 v0] d IH]; [done|].
  cbn [Py.dict_set Py.dict_get]. destruct (String.eqb k k0) eqn:E; [done|].
  rewrite !fmap_cons, IH. by destruct (Py.dict_get k d).
Qed.

Lemma dict_get_None {V} (k : string) (d : list (string * V)) :
  Py.dict_get k d = None ↔ k ∉ d.*1.
Proof.
  induction d as [|[k0 v0] d IH]; simpl.
  - split; [intros _; apply not_elem_of_nil | done].
  - rewrite not_elem_of_cons. destruct (String.eqb k k0) eqn:E.
    + apply String.eqb_eq in E. split; [done | intros []; done].
    + apply String.eqb_neq in E. rewrite IH. tauto.
Qed.

Lemma dict_set_NoDup {V} (k : string) (v : V) (d : list (string * V)) :
  NoDup d.*1 → NoDup (Py.dict_set k v d).*1.
Proof.
  intros Hd. rewrite dict_set_keys.
  destruct (Py.dict_get k d) eqn:E; [done|].
  apply NoDup_app. split_and!; [done | | apply NoDup_singleton].
  intros x Hx ->%list_elem_of_singleton. by apply dict_get_None in E.
Qed.

Lemma dict_get_Some_key {V} (k : string) (v : V) (d : list (string * V)) :
  Py.dict_get k d = Some v → (k, v) ∈ d.
Proof.
  induction d as [|[k0 v0] d IH]; simpl; [done|].
  destruct (String.eqb k k0) eqn:E.
  - apply String.eqb_eq in E as ->. intros [= ->]. apply elem_of_cons; by left.
  - intros H. apply elem_of_cons; right; auto.
Qed.

Lemma dict_get_elem {V} (k : string) (v : V) (d : list (string * V)) :
  NoDup d.*1 → (k, v) ∈ d → Py.dict_get k d = Some v.
Proof.
  induction d as [|[k0 v0] d IH]; simpl; intros Hd Hin.
  - by apply elem_of_nil in Hin.
  - apply NoDup_cons in Hd as [Hk0 Hd]. apply elem_of_cons in Hin as [[= -> ->] | Hin].
    + by rewrite String.eqb_refl.
    + destruct (String.eqb k k0) eqn:E; [|auto].
      apply String.eqb_eq in E as ->. exfalso. apply Hk0.
      apply list_elem_of_fmap. by exists (k0, v).
Qed.

Lemma Qle_bool_false (x y : Q) : Qle_bool x y = false → (y < x)%Q.
Proof.
  intros H. apply Qnot_le_lt. intros Hle. apply Qle_bool_iff in Hle. congruence.
Qed.

Lemma insert_desc_perm {A} (key : A → Q) (x : A) (l : list A) :
  Py.insert_desc key x l ≡ₚ x :: l.
Proof.
  induction l as [|y l IH]; simpl; [done|].
  destruct (Qle_bool (key y) (key x)); [done|].
  rewrite IH. apply Permutation_swap.
Qed.

Lemma sort_desc_perm {A} (key : A → Q) (l : list A) : Py.sort_desc key l ≡ₚ l.
Proof.
  induction l as [|x l IH]; simpl; [done|].
  rewrite insert_desc_perm. by rewrite IH.
Qed.

Lemma insert_desc_sorted {A} (key : A → Q) (x : A) (l : list A) :
  StronglySorted (desc key) l → StronglySorted (desc key) (Py.insert_desc key x l).
Proof.
  induction 1 as [|y l Hl IH Hy]; simpl.
  - repeat constructor.
  - destruct (Qle_bool (key y) (key x)) eqn:E.
    + apply Qle_bool_iff in E. constructor; [by constructor|].
      constructor; [done|].
      eapply Forall_impl; [exact Hy|]. intros z Hz. unfold desc in *.
      by eapply Qle_trans.
    + apply Qle_bool_false in E. constructor; [done|].
      rewrite insert_desc_perm. constructor; [|done].
      by apply Qlt_le_weak.
Qed.

Lemma sort_desc_sorted {A} (key : A → Q) (l : list A) :
  StronglySorted (desc key) (Py.sort_desc key l).
Proof.
  induction l as [|x l IH]; simpl; [constructor|]. by apply insert_desc_sorted.
Qed.

(** On a list sorted in descending order [max] picks the head. *)
Lemma max_by_sorted {A} (key : A → Q) (x : A) (l : list A) :
  StronglySorted (desc key) (x :: l) → Py.max_by key x l = x.
Proof.
  intros H. apply StronglySorted_inv in H as [_ H].
  unfold Py.max_by. induction l as [|y l IH]; simpl; [done|].
  apply Forall_cons in H as [Hy Hl]. unfold desc in Hy.
  apply Qle_bool_iff in Hy. rewrite Hy. by apply IH.
Qed.

(** ** Deduplication *)

Lemma dedup_step_get (id : string) d m :
  Py.dict_get id (dedup_step d m) = retained_step id (Py.dict_get id d) m.
Proof.
  unfold dedup_step, retained_step.
  destruct (String.eqb (matched_entity_id m) id) eqn:E.
  - apply String.eqb_eq in E as <-.
    destruct (Py.dict_get (matched_entity_id m) d) as [kept|] eqn:G.
    + destruct (Qle_bool _ _); [done|]. by rewrite dict_get_set, String.eqb_refl.
    + by rewrite dict_get_set, String.eqb_refl.
  - rewrite String.eqb_sym in E.
    destruct (Py.dict_get (matched_entity_id m) d) as [kept|].
    + destruct (Qle_bool _ _); [done|]. by rewrite dict_get_set, E.
    + by rewrite dict_get_set, E.
Qed.

Lemma dedup_step_NoDup d m : NoDup d.*1 → NoDup (dedup_step d m).*1.
Proof.
  intros Hd. unfold dedup_step.
  destruct (Py.dict_get _ d); [destruct (Qle_bool _ _)|]; auto using dict_set_NoDup.
Qed.

Lemma dedup_fold_get (id : string) ms d :
  Py.dict_get id (fold_left dedup_step ms d)
  = fold_left (retained_step id) ms (Py.dict_get id d).
Proof.
  revert d. induction ms as [|m ms IH]; intros d; simpl; [done|].
  by rewrite IH, dedup_step_get.
Qed.

Lemma dedup_fold_NoDup ms d : NoDup d.*1 → NoDup (fold_left dedup_step ms d).*1.
Proof.
  revert d. induction ms as [|m ms IH]; intros d Hd; simpl; [done|].
  by apply IH, dedup_step_NoDup.
Qed.

Lemma retained_snoc (id : string) ms m :
  retained id (ms ++ [m]) = retained_step id (retained id ms) m.
Proof. unfold retained. by rewrite fold_left_app. Qed.

Lemma retained_None (id : string) ms :
  retained id ms = None → ∀ m, m ∈ ms → matched_entity_id m ≠ id.
Proof.
  induction ms as [|x ms IH] using rev_ind; intros H m Hm.
  - by apply elem_of_nil in Hm.
  - rewrite retained_snoc in H. unfold retained_step in H.
    destruct (String.eqb (matched_entity_id x) id) eqn:E.
    + destruct (retained id ms); [destruct (Qle_bool _ _)|]; done.
    + apply String.eqb_neq in E.
      apply elem_of_app in Hm as [Hm | ->%list_elem_of_singleton]; auto.
Qed.

(** The retained match is the first one of highest confidence. *)
Lemma retained_Some (id : string) ms v :
  retained id ms = Some v →
  matched_entity_id v = id ∧
  ∃ pre post, ms = pre ++ v :: post ∧
    (∀ m, m ∈ pre → matched_entity_id m = id →
          (confidence_score m < confidence_score v)%Q) ∧
    (∀ m, m ∈ post → matched_entity_id m = id →
          (confidence_score m <= confidence_score v)%Q).
Proof.
  revert v. induction ms as [|x ms IH] using rev_ind; intros v H; [done|].
  rewrite retained_snoc in H. unfold retained_step in H.
  destruct (String.eqb (matched_entity_id x) id) eqn:E.
  - apply String.eqb_eq in E.
    destruct (retained id ms) as [kept|] eqn:R.
    + destruct (IH kept eq_refl) as (Hid & pre & post & -> & Hpre & Hpost).
      destruct (Qle_bool _ _) eqn:L; injection H as <-.
      * apply Qle_bool_iff in L. split; [done|].
        exists pre, (post ++ [x]). split; [by rewrite <- app_assoc|].
        split; [done|]. intros m Hm Hmid.
        apply elem_of_app in Hm as [Hm | ->%list_elem_of_singleton]; auto.
      * apply Qle_bool_false in L. split; [done|].
        exists (pre ++ kept :: post), []. split; [done|].
        split; [|by intros m ?%elem_of_nil].
        intros m Hm Hmid.
        apply elem_of_app in Hm as [Hm | Hm].
        { eapply Qlt_trans; [by apply Hpre | done]. }
        apply elem_of_cons in Hm as [-> | Hm]; [done|].
        eapply Qle_lt_trans; [by apply Hpost | done].
    + injection H as <-. split; [done|].
      exists ms, []. split; [done|]. split; [|by intros m ?%elem_of_nil].
      intros m Hm Hmid. by destruct (retained_None id ms R m Hm).
  - apply String.eqb_neq in E.
    destruct (IH v H) as (Hid & pre & post & -> & Hpre & Hpost).
    split; [done|]. exists pre, (post ++ [x]).
    split; [by rewrite <- app_assoc|]. split; [done|].
    intros m Hm Hmid.
    apply elem_of_app in Hm as [Hm | ->%list_elem_of_singleton]; [auto | done].
Qed.

Lemma retained_is_Some ms m :
  m ∈ ms → is_Some (retained (matched_entity_id m) ms).
Proof.
  intros Hm. destruct (retained (matched_entity_id m) ms) eqn:R; [by eexists|].
  by destruct (retained_None _ _ R m Hm).
Qed.

Lemma deduplicate_fold ms :
  _deduplicate_matches ms = Py.dict_values (fold_left dedup_step ms []).
Proof. done. Qed.

Lemma deduplicate_elem ms v :
  v ∈ _deduplicate_matches ms ↔ retained (matched_entity_id v) ms = Some v.
Proof.
  rewrite deduplicate_fold. unfold Py.dict_values.
  pose proof (dedup_fold_NoDup ms [] (NoDup_nil_2)) as Hnd.
  split.
  - intros ([k v'] & -> & Hin)%list_elem_of_fmap. simpl.
    apply dict_get_elem in Hin; [|done].
    rewrite dedup_fold_get in Hin. simpl in Hin. fold (retained k ms) in Hin.
    destruct (retained_Some _ _ _ Hin) as [-> _]. done.
  - intros R. unfold retained in R.
    change None with (Py.dict_get (matched_entity_id v) (@nil (string * EntityMatch))) in R.
    rewrite <- dedup_fold_get in R. apply dict_get_Some_key in R.
    apply list_elem_of_fmap. by exists (matched_entity_id v, v).
Qed.

Lemma deduplicate_NoDup ms : NoDup (matched_entity_id <$> _deduplicate_matches ms).
Proof.
  rewrite deduplicate_fold. unfold Py.dict_values.
  pose proof (dedup_fold_NoDup ms [] (NoDup_nil_2)) as Hnd.
  assert (Hkeys : ∀ p, p ∈ fold_left dedup_step ms [] → matched_entity_id p.2 = p.1).
  { intros [k v] Hin. simpl. apply dict_get_elem in Hin; [|done].
    rewrite dedup_fold_get in Hin. simpl in Hin. fold (retained k ms) in Hin.
    by destruct (retained_Some _ _ _ Hin) as [-> _]. }
  revert Hnd Hkeys. generalize (fold_left dedup_step ms []). intros d Hnd Hkeys.
  rewrite <- list_fmap_compose.
  erewrite (list_fmap_ext _ fst); [done|].
  intros i p Hp. simpl. apply Hkeys. by eapply list_elem_of_lookup_2.
Qed.

(** ** Aggregation (C4) *)

Lemma find_matches_hybrid env candidate tenant cell w :
  _find_matches env candidate tenant cell HYBRID w
  = (exact_matches <~ _exact_match candidate tenant cell ;;
     fuzzy_matches <~ _fuzzy_match env candidate tenant cell ;;
     semantic_matches <~ _semantic_match env candidate tenant cell ;;
     ret (aggregate (exact_matches ++ fuzzy_matches ++ semantic_matches))) w.
Proof.
  unfold _find_matches, bind, ret.
  destruct (_exact_match candidate tenant cell w) as [[ex|e] w1]; [|done].
  destruct (_fuzzy_match env candidate tenant cell w1) as [[fz|e] w2]; [|done].
  by destruct (_semantic_match env candidate tenant cell w2) as [[sm|e] w3].
Qed.

(** C4 (as amended): aggregation returns exactly one match per distinct
    [matched_entity_id], namely the first match of the input, in input
    order, among those of highest confidence for that entity, and the
    output is sorted by confidence in descending order. *)
Theorem aggregate_keeps_first_highest (ms : list EntityMatch) :
  NoDup (matched_entity_id <$> aggregate ms) ∧
  (∀ m, m ∈ ms →
     ∃ k, k ∈ aggregate ms ∧ matched_entity_id k = matched_entity_id m) ∧
  (∀ k, k ∈ aggregate ms →
     ∃ pre post, ms = pre ++ k :: post ∧
       (∀ m, m ∈ pre → matched_entity_id m = matched_entity_id k →
             (confidence_score m < confidence_score k)%Q) ∧
       (∀ m, m ∈ post → matched_entity_id m = matched_entity_id k →
             (confidence_score m <= confidence_score k)%Q)) ∧
  StronglySorted (desc confidence_score) (aggregate ms).
Proof.
  unfold aggregate. split_and!.
  - rewrite sort_desc_perm. apply deduplicate_NoDup.
  - intros m Hm. destruct (retained_is_Some ms m Hm) as [k Hk].
    destruct (retained_Some _ _ _ Hk) as [Hid _].
    exists k. split; [|done].
    rewrite sort_desc_perm. apply deduplicate_elem. by rewrite Hid.
  - intros k Hk. rewrite sort_desc_perm in Hk. apply deduplicate_elem in Hk.
    destruct (retained_Some _ _ _ Hk) as (_ & pre & post & H). by exists pre, post.
  - apply sort_desc_sorted.
Qed.

(** C4 (as stated) fails: a fuzzy and a semantic match of one entity with
    equal confidence are aggregated to the fuzzy one, the first in input
    order, although the stated preference puts SEMANTIC before FUZZY. *)
Lemma aggregate_tie_ignores_method_order :
  ¬ (∀ ms k m,
       k ∈ aggregate ms → m ∈ ms →
       matched_entity_id m = matched_entity_id k →
       (confidence_score m == confidence_score k)%Q →
       (spec_method_rank (match_method k) <= spec_method_rank (match_method m))%nat).
Proof.
  intros H.
  specialize (H [tie_fuzzy; tie_semantic] tie_fuzzy tie_semantic).
  assert (Hagg : aggregate [tie_fuzzy; tie_semantic] = [tie_fuzzy])
    by (vm_compute; reflexivity).
  rewrite Hagg in H. simpl in H.
  assert (2 <= 1)%nat; [|lia].
  apply H; [apply list_elem_of_singleton; done | | done | vm_compute; reflexivity].
  apply elem_of_cons; right. by apply list_elem_of_singleton.
Qed.

(** ** Text for embedding (C5) *)

Lemma attr_texts_snoc env keys key attrs :
  attr_texts env (keys ++ [key]) attrs
  = attr_texts env keys attrs ++
    match attrs !! key with
    | Some v =>
        if Py.truthy v then [key +:+ ": " +:+ Py.str (repr_str env) v] else []
    | None => []
    end.
Proof.
  unfold attr_texts. rewrite !for_append_omap, omap_app. f_equal. simpl.
  destruct (attrs !! key) as [v|]; [|done]. by destruct (Py.truthy v).
Qed.

(** The two texts agree on every entity without a truthy registration number. *)
Lemma texts_agree_without_registration_number env nm attrs :
  match attrs !! "registration_number" with
  | Some v => Py.truthy v = false
  | None => True
  end →
  text_for_embedding env nm attrs = text_for_cache env nm attrs.
Proof.
  intros H. unfold text_for_embedding, text_for_cache, text_with_attrs.
  change ["address"; "email"; "phone"; "business_name"; "registration_number"]
    with (["address"; "email"; "phone"; "business_name"] ++ ["registration_number"]).
  rewrite attr_texts_snoc.
  destruct (attrs !! "registration_number") as [v|]; [rewrite H|];
    by rewrite app_nil_r.
Qed.

Lemma append_assoc (a b c : string) : (a +:+ b) +:+ c = a +:+ b +:+ c.
Proof.
  induction a as [|x a IH]; [done|].
  change (String x ((a +:+ b) +:+ c) = String x (a +:+ b +:+ c)). by rewrite IH.
Qed.

Lemma join_snoc (sep : string) (p : string) (parts : list string) (x : string) :
  Py.join sep ((p :: parts) ++ [x]) = Py.join sep (p :: parts) +:+ sep +:+ x.
Proof.
  revert p. induction parts as [|q parts IH]; intros p; [done|].
  change (Py.join sep ((p :: q :: parts) ++ [x]))
    with (p +:+ sep +:+ Py.join sep ((q :: parts) ++ [x])).
  rewrite IH.
  change (Py.join sep (p :: q :: parts)) with (p +:+ sep +:+ Py.join sep (q :: parts)).
  by rewrite !append_assoc.
Qed.

(** On every entity with a truthy registration number the text of
    [_generate_embedding] is the text of the cache-miss path followed by
    the registration number fragment. *)
Lemma embedding_text_adds_registration_number env nm attrs v :
  attrs !! "registration_number" = Some v → Py.truthy v = true →
  text_for_embedding env nm attrs
  = text_for_cache env nm attrs
    +:+ " registration_number: " +:+ Py.str (repr_str env) v.
Proof.
  intros Hv Ht. unfold text_for_embedding, text_for_cache, text_with_attrs.
  assert (Hsize : Nat.eqb (size attrs) 0 = false).
  { apply Nat.eqb_neq. intros H0. apply map_size_empty_iff in H0. subst attrs.
    by rewrite lookup_empty in Hv. }
  rewrite Hsize. cbn [negb].
  change ["address"; "email"; "phone"; "business_name"; "registration_number"]
    with (["address"; "email"; "phone"; "business_name"] ++ ["registration_number"]).
  rewrite attr_texts_snoc, Hv, Ht.
  destruct (attr_texts env ["address"; "email"; "phone"; "business_name"] attrs)
    as [|t ts] eqn:E.
  - reflexivity.
  - set (fragment := "registration_number" +:+ ": " +:+ Py.str (repr_str env) v).
    transitivity (nm +:+ " " +:+ Py.join " " ((t :: ts) ++ [fragment])); [done|].
    rewrite join_snoc, !append_assoc. reflexivity.
Qed.

(** C5 (defect in the code): for the entity named Acme Corp whose only
    attribute is a registration number, [_generate_embedding] puts the
    registration number in the text, and the cache-miss path, whose key list
    lacks [registration_number], does not. *)
Theorem cache_text_omits_registration_number (env : Env) :
  text_for_embedding env "Acme Corp" registered_attrs
    = "Acme Corp registration_number: RN-42" ∧
  text_for_cache env "Acme Corp" registered_attrs = "Acme Corp".
Proof. split; vm_compute; reflexivity. Qed.

(** ** Attribute merge (C8) *)

Lemma unhashable_union_None_r (old : option PyVal) :
  unhashable_union old None = false.
Proof. by destruct old as [[]|]. Qed.

Lemma merge_key_spec env key value merged :
  match merge_key env key value merged with
  | Ok r =>
      unhashable_union (merged !! key) (Some value) = false ∧
      ∀ k, r !! k = if decide (key = k)
                    then merged_value env (merged !! key) (Some value)
                    else merged !! k
  | Raise e => e = TypeError ∧ unhashable_union (merged !! key) (Some value) = true
  end.
Proof.
  unfold merge_key, list_set, unhashable_union, merged_value.
  assert (Hins : ∀ v k, <[key := v]> merged !! k
                        = if decide (key = k) then Some v else merged !! k).
  { intros v k. case_decide as Hk; [subst k; apply lookup_insert_eq|].
    by apply lookup_insert_ne. }
  assert (Hsame : ∀ old k, merged !! key = Some old →
                    merged !! k = if decide (key = k) then Some old else merged !! k).
  { intros old k Hold. case_decide as Hk; [by subst k | done]. }
  destruct (merged !! key) as [old|] eqn:E; [|by split].
  destruct (Py.truthy old) eqn:Ht; simpl.
  2:{ split; [|done]. destruct old, value; try done. simpl in Ht.
      by rewrite Ht. }
  destruct value as [| | | |new_list], old as [| | | |existing_list];
    try (split; [done | intros k; by apply Hsame]).
  simpl in Ht. rewrite Ht. simpl.
  destruct (forallb Py.hashable (existing_list ++ new_list)); simpl; by split.
Qed.

Lemma merge_attributes_spec env (existing new : gmap string PyVal) :
  match merge_attributes env existing new with
  | Ok merged =>
      (∀ k, unhashable_union (existing !! k) (new !! k) = false) ∧
      ∀ k, merged !! k = merged_value env (existing !! k) (new !! k)
  | Raise e =>
      e = TypeError ∧ ∃ k, unhashable_union (existing !! k) (new !! k) = true
  end.
Proof.
  unfold merge_attributes.
  apply (map_fold_weak_ind
           (fun (r : Result (gmap string PyVal)) (m : gmap string PyVal) =>
              match r with
              | Ok merged =>
                  (∀ k, unhashable_union (existing !! k) (m !! k) = false) ∧
                  ∀ k, merged !! k = merged_value env (existing !! k) (m !! k)
              | Raise e =>
                  e = TypeError ∧
                  ∃ k, unhashable_union (existing !! k) (m !! k) = true
              end)).
  - split; intros k; rewrite lookup_empty; [apply unhashable_union_None_r | done].
  - intros i x m [merged|e] Hi.
    + intros [Hfree IH].
      pose proof (merge_key_spec env i x merged) as Hkey.
      assert (Hold : merged !! i = existing !! i) by (by rewrite IH, Hi).
      rewrite Hold in Hkey.
      destruct (merge_key env i x merged) as [r|e].
      * destruct Hkey as [Hk Hlook]. split; intros k.
        -- destruct (decide (i = k)) as [<-|Hne];
             [by rewrite lookup_insert_eq | by rewrite lookup_insert_ne].
        -- rewrite Hlook. case_decide as Hne.
           ++ subst k. by rewrite lookup_insert_eq.
           ++ by rewrite lookup_insert_ne, IH.
      * destruct Hkey as [-> Hk]. split; [done|]. exists i.
        by rewrite lookup_insert_eq.
    + intros [-> (k & Hk)]. split; [done|]. exists k.
      destruct (decide (i = k)) as [<-|Hne].
      * by rewrite Hi, unhashable_union_None_r in Hk.
      * by rewrite lookup_insert_ne.
Qed.

Lemma merge_attributes_lookup env (existing new merged : gmap string PyVal) k :
  merge_attributes env existing new = Ok merged →
  merged !! k = merged_value env (existing !! k) (new !! k).
Proof.
  intros H. pose proof (merge_attributes_spec env existing new) as Hs.
  rewrite H in Hs. apply Hs.
Qed.

Lemma merge_attributes_returns env (existing new : gmap string PyVal) :
  (∀ k, unhashable_union (existing !! k) (new !! k) = false) →
  ∃ merged, merge_attributes env existing new = Ok merged.
Proof.
  intros Hfree. pose proof (merge_attributes_spec env existing new) as Hs.
  destruct (merge_attributes env existing new) as [merged|e]; [by exists merged|].
  destruct Hs as [_ (k & Hk)]. by rewrite Hfree in Hk.
Qed.




Lemma hashable_lists_lookup (attrs : gmap string PyVal) k v :
  hashable_lists attrs = true → attrs !! k = Some v → hashable_value v = true.
Proof.
  unfold hashable_lists. rewrite forallb_forall. intros H Hk.
  apply (H (k, v)). apply list_elem_of_In. by apply elem_of_map_to_list.
Qed.

(** Lists without dicts and nested lists are merged without an exception. *)
Lemma hashable_lists_merge (existing new : gmap string PyVal) k :
  hashable_lists existing = true → hashable_lists new = true →
  unhashable_union (existing !! k) (new !! k) = false.
Proof.
  intros He Hn. unfold unhashable_union.
  destruct (existing !! k) as [[| | | |existing_list]|] eqn:E; try done.
  destruct (new !! k) as [[| | | |new_list]|] eqn:N; try done.
  apply (hashable_lists_lookup _ _ _ He) in E.
  apply (hashable_lists_lookup _ _ _ Hn) in N. simpl in E, N.
  by rewrite forallb_app, E, N, andb_false_r.
Qed.





(** ** Running the store-backed strategies *)

Lemma run_match_run props limit w :
  run_match props limit w
  = (Ok (match limit with
         | Some n => take n (List.filter props (w_store w))
         | None => List.filter props (w_store w)
         end), logged StoreQuery w).
Proof. done. Qed.

Lemma exact_match_run candidate tenant cell w :
  _exact_match candidate tenant cell w
  = (Ok ((fun record =>
            mkMatch (entity_id candidate) (pe_id record) 1 EXACT
              (details_of (pe_name record) (pe_attributes record) NoScore))
         <$> take 10 (List.filter
                        (by_name_type_scope (name candidate) (entity_type candidate)
                           tenant cell) (w_store w))),
     logged StoreQuery w).
Proof.
  unfold _exact_match, bind. rewrite run_match_run. unfold ret.
  rewrite for_append_omap. do 2 f_equal.
Qed.

Lemma fuzzy_match_run env candidate tenant cell w :
  _fuzzy_match env candidate tenant cell w
  = (Ok (omap (fuzzy_record env candidate)
           (scoped_rows 100 (entity_type candidate) tenant cell w)),
     logged StoreQuery w).
Proof.
  unfold _fuzzy_match, bind. rewrite run_match_run. unfold ret.
  by rewrite for_append_omap.
Qed.

Lemma filter_elem {A} (p : A → bool) (l : list A) (x : A) :
  x ∈ List.filter p l ↔ x ∈ l ∧ p x = true.
Proof. rewrite !list_elem_of_In. apply filter_In. Qed.

Lemma take_elem {A} (n : nat) (l : list A) (x : A) : x ∈ take n l → x ∈ l.
Proof. intros H. rewrite <- (take_drop n l). apply elem_of_app. by left. Qed.

Lemma by_type_scope_true ty tenant cell e :
  by_type_scope ty tenant cell e = true ↔
  pe_entity_type e = ty ∧ pe_tenant_id e = tenant ∧ pe_cell_id e = cell.
Proof.
  unfold by_type_scope. rewrite !andb_true_iff, !String.eqb_eq. tauto.
Qed.

Lemma by_name_type_scope_true nm ty tenant cell e :
  by_name_type_scope nm ty tenant cell e = true ↔
  pe_name e = nm ∧ pe_entity_type e = ty ∧ pe_tenant_id e = tenant ∧ pe_cell_id e = cell.
Proof.
  unfold by_name_type_scope. rewrite !andb_true_iff, !String.eqb_eq. tauto.
Qed.

Lemma by_id_scope_true id tenant cell e :
  by_id_scope id tenant cell e = true ↔
  pe_id e = id ∧ pe_tenant_id e = tenant ∧ pe_cell_id e = cell.
Proof.
  unfold by_id_scope. rewrite !andb_true_iff, !String.eqb_eq. tauto.
Qed.

Lemma fuzzy_record_Some env candidate record m :
  fuzzy_record env candidate record = Some m ↔
  let similarity :=
    fuzz_ratio env (Py.lower (name candidate)) (Py.lower (pe_name record)) in
  fuzzy_threshold ≤ similarity ∧
  m = mkMatch (entity_id candidate) (pe_id record) (inject_Z similarity / 100) FUZZY
        (details_of (pe_name record) (pe_attributes record) (FuzzyScore similarity)).
Proof.
  unfold fuzzy_record. simpl.
  destruct (Z.leb_spec fuzzy_threshold
              (fuzz_ratio env (Py.lower (name candidate)) (Py.lower (pe_name record)))).
  - split; [intros [= <-]; done | intros [_ ->]; done].
  - split; [done | intros [? _]; lia].
Qed.

(** ** The fuzzy strategy (C6) *)

(** C6: of the stored entities the fuzzy strategy considers (those of the
    type in the scope, up to the cap of 100), one yields a match exactly
    when its similarity to the observed name is at least 80; the match has
    confidence similarity / 100, which is 1 at similarity 100, and below 80
    no match carries the entity's name. *)
Theorem fuzzy_match_threshold (env : Env) (candidate : EntityCandidate)
    (tenant cell : string) (w : World) :
  ∃ matches,
    _fuzzy_match env candidate tenant cell w = (Ok matches, logged StoreQuery w) ∧
    (∀ record,
       record ∈ scoped_rows 100 (entity_type candidate) tenant cell w →
       let similarity :=
         fuzz_ratio env (Py.lower (name candidate)) (Py.lower (pe_name record)) in
       (fuzzy_threshold ≤ similarity →
          ∃ m, m ∈ matches ∧ matched_entity_id m = pe_id record ∧
               matched_name (match_details m) = pe_name record ∧
               match_method m = FUZZY ∧
               (confidence_score m == inject_Z similarity / 100)%Q ∧
               (similarity = 100 → (confidence_score m == 1)%Q)) ∧
       (similarity < fuzzy_threshold →
          ∀ m, m ∈ matches → matched_name (match_details m) ≠ pe_name record)) ∧
    (∀ m, m ∈ matches →
       ∃ record,
         record ∈ scoped_rows 100 (entity_type candidate) tenant cell w ∧
         matched_entity_id m = pe_id record ∧
         matched_name (match_details m) = pe_name record ∧
         let similarity :=
           fuzz_ratio env (Py.lower (name candidate)) (Py.lower (pe_name record)) in
         80 ≤ similarity ∧
         (confidence_score m == inject_Z similarity / 100)%Q).
Proof.
  eexists. split; [apply fuzzy_match_run|].
  assert (Hback : ∀ m,
    m ∈ omap (fuzzy_record env candidate)
          (scoped_rows 100 (entity_type candidate) tenant cell w) →
    ∃ record,
      record ∈ scoped_rows 100 (entity_type candidate) tenant cell w ∧
      matched_entity_id m = pe_id record ∧
      matched_name (match_details m) = pe_name record ∧
      80 ≤ fuzz_ratio env (Py.lower (name candidate)) (Py.lower (pe_name record)) ∧
      (confidence_score m ==
       inject_Z (fuzz_ratio env (Py.lower (name candidate)) (Py.lower (pe_name record)))
       / 100)%Q).
  { intros m (record & Hin & Hrec)%list_elem_of_omap.
    apply fuzzy_record_Some in Hrec as [Hle ->]. exists record. simpl.
    split_and!; done. }
  split; [|intros m Hm; destruct (Hback m Hm) as (r & ?); by exists r].
  intros record Hin similarity. split.
  - intros Hle. eexists. split.
    + apply list_elem_of_omap. exists record. split; [done|].
      apply fuzzy_record_Some. split; [exact Hle | reflexivity].
    + simpl. split_and!; try done. fold similarity. intros ->. reflexivity.
  - intros Hlt m Hm Hname.
    destruct (Hback m Hm) as (r & _ & _ & Hn & Hge & _).
    rewrite Hname in Hn. rewrite <- Hn in Hge.
    unfold similarity, fuzzy_threshold in Hlt. lia.
Qed.

(** ** Names that differ only in letter case (C10) *)

(** C10 (as amended): when the observed name and a stored name are
    different strings with the same lower-case form, no exact match carries
    the stored name, because the exact query compares names as they are.
    The fuzzy strategy lowers both names before scoring, and it scores the
    first 100 rows the store returns for the type, tenant and cell: for a
    stored entity among these rows it yields a match with similarity 100
    and confidence 1, and every match it yields refers to one of these
    rows.  The string ratio of two equal strings is 100. *)
Theorem case_variant_exact_misses_fuzzy_matches (env : Env)
    (Hratio : ∀ s, fuzz_ratio env s s = 100)
    (candidate : EntityCandidate) (tenant cell : string) (w : World)
    (record : PersistedEntity) :
  Py.lower (name candidate) = Py.lower (pe_name record) →
  name candidate ≠ pe_name record →
  (∃ exact_matches,
     _exact_match candidate tenant cell w = (Ok exact_matches, logged StoreQuery w) ∧
     ∀ m, m ∈ exact_matches →
          matched_name (match_details m) = name candidate ∧
          matched_name (match_details m) ≠ pe_name record) ∧
  (∃ fuzzy_matches,
     _fuzzy_match env candidate tenant cell w = (Ok fuzzy_matches, logged StoreQuery w) ∧
     (record ∈ scoped_rows 100 (entity_type candidate) tenant cell w →
      ∃ m, m ∈ fuzzy_matches ∧ matched_entity_id m = pe_id record ∧
           matched_name (match_details m) = pe_name record ∧
           match_method m = FUZZY ∧
           score_detail (match_details m) = FuzzyScore 100 ∧
           (confidence_score m == 1)%Q) ∧
     (∀ m, m ∈ fuzzy_matches →
        ∃ row, row ∈ scoped_rows 100 (entity_type candidate) tenant cell w ∧
               matched_entity_id m = pe_id row ∧
               matched_name (match_details m) = pe_name row)).
Proof.
  intros Hlower Hne. split.
  - eexists. split; [apply exact_match_run|].
    intros m (r & -> & Hr)%list_elem_of_fmap. simpl.
    apply take_elem, filter_elem in Hr as [_ Hr].
    apply by_name_type_scope_true in Hr as [Hname _].
    split; [done | by rewrite Hname].
  - eexists. split; [apply fuzzy_match_run|]. split.
    + intros Hin. eexists. split.
      * apply list_elem_of_omap. exists record. split; [done|].
        apply fuzzy_record_Some. split; [|reflexivity].
        rewrite Hlower, Hratio. unfold fuzzy_threshold. lia.
      * simpl. rewrite Hlower, Hratio. split_and!; done.
    + intros m (row & Hrow & Hrec)%list_elem_of_omap.
      apply fuzzy_record_Some in Hrec as [_ ->]. by exists row.
Qed.

Lemma stub_ratio_refl (s : string) : fuzz_ratio stub_env s s = 100.
Proof. simpl. by rewrite String.eqb_refl. Qed.

Lemma case_variant_exact_misses_fuzzy_matches_witness :
  (∃ exact_matches,
     _exact_match acme_candidate "t-1" "c-1" acme_world
       = (Ok exact_matches, logged StoreQuery acme_world) ∧
     ∀ m, m ∈ exact_matches →
          matched_name (match_details m) = "Acme Corp" ∧
          matched_name (match_details m) ≠ "ACME CORP") ∧
  (∃ fuzzy_matches,
     _fuzzy_match stub_env acme_candidate "t-1" "c-1" acme_world
       = (Ok fuzzy_matches, logged StoreQuery acme_world) ∧
     ∃ m, m ∈ fuzzy_matches ∧ matched_entity_id m = "e-1" ∧
          matched_name (match_details m) = "ACME CORP" ∧
          match_method m = FUZZY ∧
          score_detail (match_details m) = FuzzyScore 100 ∧
          (confidence_score m == 1)%Q).
Proof.
  destruct (case_variant_exact_misses_fuzzy_matches stub_env stub_ratio_refl
              acme_candidate "t-1" "c-1" acme_world acme_upper)
    as [Hexact (fuzzy_matches & Hrun & Hhit & _)].
  - vm_compute; reflexivity.
  - discriminate.
  - split; [exact Hexact|]. exists fuzzy_matches. split; [exact Hrun|].
    apply Hhit. vm_compute. apply list_elem_of_singleton. reflexivity.
Defined.

(** C10 (as stated) fails: the store holds a hundred other organisations of
    the scope before ACME CORP; the fuzzy query returns the first hundred
    rows, ACME CORP is not among them, and the observation Acme Corp gets no
    fuzzy match at all. *)
Lemma case_variant_beyond_the_first_rows_is_missed :
  acme_upper ∈ w_store crowded_world ∧
  Py.lower (name acme_candidate) = Py.lower (pe_name acme_upper) ∧
  name acme_candidate ≠ pe_name acme_upper ∧
  _fuzzy_match stub_env acme_candidate "t-1" "c-1" crowded_world
    = (Ok [], logged StoreQuery crowded_world).
Proof.
  split_and!.
  - apply elem_of_app. right. apply list_elem_of_singleton. reflexivity.
  - vm_compute; reflexivity.
  - discriminate.
  - vm_compute; reflexivity.
Qed.

(** ** The clustering strategy (C7) *)

Lemma enumerate_snoc {A} (l : list A) (x : A) :
  Py.enumerate (l ++ [x]) = Py.enumerate l ++ [(length l, x)].
Proof.
  unfold Py.enumerate. rewrite length_app, seq_app.
  rewrite zip_with_app by (by rewrite length_seq). done.
Qed.

Lemma enumerate_elem {A} (l : list A) (i : nat) (x : A) :
  (i, x) ∈ Py.enumerate l ↔ l !! i = Some x.
Proof.
  induction l as [|y l IH] using rev_ind.
  - split; [by intros ?%elem_of_nil | done].
  - rewrite enumerate_snoc, elem_of_app, list_elem_of_singleton, IH, lookup_snoc_Some.
    split.
    + intros [H | [= -> ->]]; [left | right; done].
      split; [|done]. by eapply lookup_lt_Some.
    + intros [[_ H] | [-> ->]]; [by left | by right].
Qed.

Lemma where_eq_snoc (labels : list Z) (x c : Z) :
  where_eq (labels ++ [x]) c
  = where_eq labels c ++ (if x =? c then [length labels] else []).
Proof.
  unfold where_eq. rewrite enumerate_snoc, List.filter_app, fmap_app. simpl.
  by destruct (x =? c).
Qed.

Lemma where_eq_elem (labels : list Z) (c : Z) (i : nat) :
  i ∈ where_eq labels c ↔ labels !! i = Some c.
Proof.
  unfold where_eq. rewrite list_elem_of_fmap. split.
  - intros ([j x] & -> & [Hin Hx]%filter_elem). simpl in *.
    apply Z.eqb_eq in Hx as ->. by apply enumerate_elem.
  - intros H. exists (i, c). split; [done|]. apply filter_elem.
    split; [by apply enumerate_elem | apply Z.eqb_refl].
Qed.

Lemma for_each_lookups {A B} (body : list B → A → M (list B)) (g : A → option B)
    (l : list A) (acc : list B) (w : World) :
  (∀ x acc w, x ∈ l →
     ∃ y, g x = Some y ∧ body acc x w = (Ok (acc ++ [y]), w)) →
  for_each body l acc w = (Ok (acc ++ omap g l), w).
Proof.
  revert acc. induction l as [|x l IH]; intros acc H; simpl.
  - by rewrite app_nil_r.
  - unfold bind. destruct (H x acc w) as (y & -> & ->); [apply elem_of_cons; by left|].
    rewrite IH; [by rewrite <- app_assoc|].
    intros x' acc' w' Hx'. apply H. apply elem_of_cons. by right.
Qed.

Lemma stub_labels_length (features : list (list Z)) :
  length (fit_predict stub_env features) = length features.
Proof. simpl. apply length_fmap. Qed.

(** C7: the clustering strategy returns nothing when fewer than three
    entities of the type exist in the scope, and nothing when the candidate
    is labelled noise (-1); when the candidate is in cluster [c], every
    stored entity labelled [c] is returned, every returned match is such an
    entity, and each has confidence min(0.9, 0.5 + (cluster_size - 2) * 0.1),
    which is at most 0.9.  The clustering model returns one label per row. *)
Theorem clustering_match_policy (env : Env)
    (Hlabels : ∀ features, length (fit_predict env features) = length features)
    (candidate : EntityCandidate) (tenant cell : string) (w : World) :
  let entities := scoped_rows 500 (entity_type candidate) tenant cell w in
  let labels := fit_predict env (clustering_features candidate entities) in
  ((length entities < 3)%nat →
     _ml_clustering_match env candidate tenant cell w = (Ok [], logged StoreQuery w)) ∧
  ((3 <= length entities)%nat → last labels = Some (-1) →
     _ml_clustering_match env candidate tenant cell w = (Ok [], logged StoreQuery w)) ∧
  ((3 <= length entities)%nat → ∀ c, last labels = Some c → c ≠ -1 →
     let cluster_size := Z.of_nat (length (where_eq labels c)) in
     ∃ matches,
       _ml_clustering_match env candidate tenant cell w
         = (Ok matches, logged StoreQuery w) ∧
       (∀ i e, entities !! i = Some e → labels !! i = Some c →
          ∃ m, m ∈ matches ∧ matched_entity_id m = pe_id e ∧
               match_method m = ML_CLUSTERING) ∧
       (∀ m, m ∈ matches →
          (∃ i e, entities !! i = Some e ∧ labels !! i = Some c ∧
                  matched_entity_id m = pe_id e) ∧
          (confidence_score m ==
             Qmin (9 # 10) ((5 # 10) + (inject_Z cluster_size - 2) * (1 # 10)))%Q ∧
          (confidence_score m <= 9 # 10)%Q)).
Proof.
  intros entities labels.
  assert (Hrun : ∀ k : list PersistedEntity → M (list EntityMatch),
    (entities_data <~ _get_entities_for_clustering (entity_type candidate) tenant cell ;;
     k entities_data) w = k entities (logged StoreQuery w)) by done.
  unfold _ml_clustering_match. rewrite Hrun. fold entities. split_and!.
  - intros Hlt. apply Nat.ltb_lt in Hlt. by rewrite Hlt.
  - intros Hge Hlast. apply Nat.ltb_ge in Hge. rewrite Hge.
    fold labels. unfold bind. rewrite Hlast. done.
  - intros Hge c Hlast Hc. apply Nat.ltb_ge in Hge. rewrite Hge.
    fold labels. unfold bind at 1. rewrite Hlast. simpl.
    apply Z.eqb_neq in Hc. rewrite Hc. simpl.
    set (cluster_size := Z.of_nat (length (where_eq labels c))).
    destruct (proj1 (last_Some _ _) Hlast) as [init Hinit].
    assert (Hlen : length init = length entities).
    { pose proof (Hlabels (clustering_features candidate entities)) as H.
      fold labels in H. rewrite Hinit in H. unfold clustering_features in H.
      rewrite !length_app, length_fmap in H. simpl in H. lia. }
    assert (Hidx : removelast (where_eq labels c) = where_eq init c).
    { rewrite Hinit, where_eq_snoc, Z.eqb_refl. apply removelast_last. }
    rewrite Hidx.
    set (g := fun idx : nat =>
      e ← entities !! idx;
      Some (mkMatch (entity_id candidate) (pe_id e) (cluster_confidence cluster_size)
              ML_CLUSTERING
              (details_of (pe_name e) (pe_attributes e) (ClusterInfo c cluster_size)))).
    rewrite (for_each_lookups _ g).
    2:{ intros idx acc w' Hin. apply where_eq_elem in Hin.
        assert (idx < length entities)%nat as Hlt
          by (rewrite <- Hlen; by eapply lookup_lt_Some).
        destruct (lookup_lt_is_Some_2 entities idx Hlt) as [e He].
        unfold g. rewrite He. simpl. eexists. split; [done|].
        unfold bind. rewrite lookup_app_l by (by rewrite length_fmap).
        rewrite list_lookup_fmap, He. simpl. done. }
    simpl. eexists. split; [done|]. split.
    + intros i e He Hl. eexists. split.
      * apply list_elem_of_omap. exists i. split.
        -- apply where_eq_elem. unfold labels in Hl. fold labels in Hl.
           rewrite Hinit in Hl. apply lookup_snoc_Some in Hl as [[_ Hl] | [Hi _]]; [done|].
           apply lookup_lt_Some in He. lia.
        -- unfold g. rewrite He. done.
      * done.
    + intros m (idx & Hin & Hg)%list_elem_of_omap.
      apply where_eq_elem in Hin. unfold g in Hg.
      destruct (entities !! idx) as [e|] eqn:He; [|done]. injection Hg as <-. simpl.
      split_and!.
      * exists idx, e. split_and!; try done. rewrite Hinit.
        apply lookup_snoc_Some. left. split; [by eapply lookup_lt_Some | done].
      * reflexivity.
      * apply Q.le_min_l.
Qed.

Lemma clustering_match_policy_witness :
  ∃ matches,
    _ml_clustering_match stub_env acme_candidate "t-1" "c-1" trio_world
      = (Ok matches, logged StoreQuery trio_world) ∧
    length matches = 3%nat ∧
    ∀ m, m ∈ matches → (confidence_score m <= 9 # 10)%Q.
Proof.
  destruct (clustering_match_policy stub_env stub_labels_length
              acme_candidate "t-1" "c-1" trio_world) as (_ & _ & H).
  destruct (H ltac:(vm_compute; lia) 0 ltac:(vm_compute; reflexivity)
              ltac:(discriminate)) as (matches & Hrun & _ & Hall).
  exists matches. split; [exact Hrun|]. split.
  - assert (Hc : _ml_clustering_match stub_env acme_candidate "t-1" "c-1" trio_world
                 = (Ok matches, logged StoreQuery trio_world)) by exact Hrun.
    vm_compute in Hc. injection Hc as <-. reflexivity.
  - intros m Hm. by destruct (Hall m Hm) as (_ & _ & ?).
Defined.

(** ** What a strategy may touch *)

Lemma keeps_store_ret {A} (a : A) : keeps_store (ret a).
Proof. done. Qed.

Lemma keeps_store_raise {A} (e : Exn) : keeps_store (@raise A e).
Proof. done. Qed.

Lemma keeps_store_bind {A B} (c : M A) (k : A → M B) :
  keeps_store c → (∀ a, keeps_store (k a)) → keeps_store (bind c k).
Proof.
  intros Hc Hk w. unfold bind. specialize (Hc w).
  destruct (c w) as [[a|e] w']; simpl in *; [|done]. by rewrite Hk.
Qed.

Lemma keeps_store_try {A} (c : M A) (h : Exn → M A) :
  keeps_store c → (∀ e, keeps_store (h e)) → keeps_store (try_except c h).
Proof.
  intros Hc Hh w. unfold try_except. specialize (Hc w).
  destruct (c w) as [[a|e] w']; simpl in *; [done|]. by rewrite Hh.
Qed.

Lemma keeps_store_of_option {A} (e : Exn) (o : option A) : keeps_store (of_option e o).
Proof. by destruct o. Qed.

Lemma keeps_store_log (c : Call) : keeps_store (log_call c).
Proof. done. Qed.

Lemma keeps_store_for_each {A B} (body : list B → A → M (list B)) l acc :
  (∀ acc x, keeps_store (body acc x)) → keeps_store (for_each body l acc).
Proof.
  intros Hb. revert acc. induction l as [|x l IH]; intros acc; simpl.
  - apply keeps_store_ret.
  - apply keeps_store_bind; auto.
Qed.

Lemma keeps_store_calls_so_far : keeps_store calls_so_far.
Proof. done. Qed.

Lemma keeps_store_uuid4 : keeps_store uuid4.
Proof. done. Qed.

Create HintDb keeps.
#[local] Hint Resolve keeps_store_ret keeps_store_raise keeps_store_of_option
  keeps_store_log keeps_store_calls_so_far keeps_store_uuid4 : keeps.

Ltac keeps :=
  repeat first
    [ progress eauto with keeps
    | apply keeps_store_bind; [|intros ?]
    | apply keeps_store_try; [|intros ?]
    | apply keeps_store_for_each; intros ? ?
    | match goal with
      | |- keeps_store (match ?x with _ => _ end) => destruct x
      | |- keeps_store (fun _ => _) => by intros ?
      end ].

Lemma keeps_store_run_match props limit : keeps_store (run_match props limit).
Proof. done. Qed.

Lemma keeps_store_model_encode env texts : keeps_store (model_encode env texts).
Proof. unfold model_encode. keeps. Qed.

Lemma keeps_store_redis_get env key : keeps_store (redis_get env key).
Proof. unfold redis_get. keeps. Qed.

Lemma keeps_store_redis_setex env key ttl data : keeps_store (redis_setex env key ttl data).
Proof. unfold redis_setex. keeps. Qed.

#[local] Hint Resolve keeps_store_run_match keeps_store_model_encode
  keeps_store_redis_get keeps_store_redis_setex : keeps.

Lemma keeps_store_cached env ty tenant cell :
  keeps_store (_get_cached_embeddings env ty tenant cell).
Proof. unfold _get_cached_embeddings, _generate_and_cache_embeddings. keeps. Qed.

#[local] Hint Resolve keeps_store_cached : keeps.

Lemma keeps_store_exact candidate tenant cell :
  keeps_store (_exact_match candidate tenant cell).
Proof. unfold _exact_match. keeps. Qed.

Lemma keeps_store_fuzzy env candidate tenant cell :
  keeps_store (_fuzzy_match env candidate tenant cell).
Proof. unfold _fuzzy_match. keeps. Qed.

Lemma keeps_store_semantic env candidate tenant cell :
  keeps_store (_semantic_match env candidate tenant cell).
Proof. unfold _semantic_match. keeps. Qed.

Lemma keeps_store_clustering env candidate tenant cell :
  keeps_store (_ml_clustering_match env candidate tenant cell).
Proof. unfold _ml_clustering_match, _get_entities_for_clustering. keeps. Qed.

#[local] Hint Resolve keeps_store_exact keeps_store_fuzzy keeps_store_semantic
  keeps_store_clustering : keeps.

Lemma keeps_store_find_matches env candidate tenant cell method :
  keeps_store (_find_matches env candidate tenant cell method).
Proof. unfold _find_matches. keeps. Qed.

Lemma keeps_store_build_candidate env data method :
  keeps_store (build_candidate env data method).
Proof. unfold build_candidate, _generate_embedding, EntityType. keeps. Qed.

(** A cache that cannot be read counts as a miss: the embeddings are
    generated from the store. *)
Lemma cache_read_failure_is_absorbed env ty tenant cell w :
  cache_down env (length (w_calls w)) = true →
  _get_cached_embeddings env ty tenant cell w
  = _generate_and_cache_embeddings env ty tenant cell
      (logged (CacheGet (cache_key ty tenant cell)) w).
Proof.
  intros Hdown. unfold _get_cached_embeddings, bind at 1, try_except, redis_get.
  unfold bind at 1. unfold calls_so_far, bind at 1. unfold log_call.
  by rewrite Hdown.
Qed.

(** ** Invalid observations (C9) *)

Lemma existsb_eqb_false (value : string) (l : list string) :
  value ∉ l → existsb (String.eqb value) l = false.
Proof.
  intros Hnot. apply not_true_is_false. intros H.
  apply existsb_exists in H as (x & Hx & ->%String.eqb_eq).
  by apply Hnot, list_elem_of_In.
Qed.

(** C9 (as amended): an observation whose entity type is not a recognised
    enum value makes [resolve_entity] return the Error outcome, carrying
    the [ValueError] of the enum constructor, before any downstream call:
    the store, the cache and the trace of calls are as they were. *)
Theorem unrecognised_type_fails_fast (env : Env) (data : EntityData)
    (tenant cell : string) (method : MatchMethod) (create_if_not_found : bool)
    (w : World) (nm raw : string) :
  ed_name data = Some nm →
  ed_entity_type data = Some raw →
  raw ∉ entity_types env →
  ∃ w',
    resolve_entity env data tenant cell method create_if_not_found w
      = (Error (ValueError (repr_str env raw +:+ " is not a valid EntityType")), w') ∧
    w_store w' = w_store w ∧ w_cache w' = w_cache w ∧ w_calls w' = w_calls w.
Proof.
  intros Hname Htype Hnot. eexists.
  unfold resolve_entity, resolve_entity_try, build_candidate, bind, uuid4,
    EntityType.
  rewrite Hname, Htype. simpl. rewrite (existsb_eqb_false _ _ Hnot). simpl.
  split; [reflexivity | done].
Qed.

Lemma unrecognised_type_fails_fast_witness :
  ∃ w',
    resolve_entity stub_env (mkData (Some "Acme Corp") (Some "planet") None None)
      "t-1" "c-1" HYBRID true acme_stored_world
      = (Error (ValueError "'planet' is not a valid EntityType"), w') ∧
    w_store w' = w_store acme_stored_world ∧
    w_cache w' = w_cache acme_stored_world ∧
    w_calls w' = w_calls acme_stored_world.
Proof.
  apply (unrecognised_type_fails_fast stub_env _ "t-1" "c-1" HYBRID true
           acme_stored_world "Acme Corp" "planet").
  - reflexivity.
  - reflexivity.
  - vm_compute. intros H. repeat (apply elem_of_cons in H as [H | H]; [discriminate H|]).
    by apply elem_of_nil in H.
Defined.

(** C9 (as stated) fails: an observation with an empty name and a
    recognised type is not rejected; with [create_if_not_found] the store
    is queried and an entity with the empty name is created. *)
Lemma empty_name_is_not_rejected :
  ed_name nameless_data = Some "" ∧
  resolve_entity stub_env nameless_data "t-1" "c-1" EXACT true empty_world
  = (Created (mkEntity "uuid-1" "" "organization" ∅ "t-1" "c-1") 1 [],
     mkWorld [mkEntity "uuid-1" "" "organization" ∅ "t-1" "c-1"] ∅ 2
       [StoreQuery; StoreCreate]).
Proof. split; [reflexivity | vm_compute; reflexivity]. Qed.

(** ** Failure of one strategy in the hybrid method (C1) *)

Lemma resolve_entity_steps env data tenant cell method create w candidate w0 :
  build_candidate env data method w = (Ok candidate, w0) →
  resolve_entity env data tenant cell method create w
  = match _find_matches env candidate tenant cell method w0 with
    | (Ok matches, w1) =>
        match decide_outcome env data candidate tenant cell create matches w1 with
        | (Ok outcome, w2) => (outcome, w2)
        | (Raise e, w2) => (Error e, w2)
        end
    | (Raise e, w1) => (Error e, w1)
    end.
Proof.
  intros Hb. unfold resolve_entity, resolve_entity_try, bind. rewrite Hb.
  by destruct (_find_matches env candidate tenant cell method w0) as [[ms|e] w1].
Qed.

(** C1 (as amended): in the hybrid method the strategies run one after the
    other with no handler between them; when the semantic strategy raises
    after the exact and fuzzy strategies have returned their matches,
    [resolve_entity] returns the Error outcome with that exception, the
    matches already found are dropped, and the store is as it was.  The
    same holds when the embedding of the candidate fails. *)
Theorem hybrid_strategy_failure_is_error (env : Env) (data : EntityData)
    (tenant cell : string) (create_if_not_found : bool) (w : World) :
  (∀ e w0,
     build_candidate env data HYBRID w = (Raise e, w0) →
     resolve_entity env data tenant cell HYBRID create_if_not_found w = (Error e, w0) ∧
     w_store w0 = w_store w) ∧
  (∀ candidate w0 exact_matches w1 fuzzy_matches w2 e w3,
     build_candidate env data HYBRID w = (Ok candidate, w0) →
     _exact_match candidate tenant cell w0 = (Ok exact_matches, w1) →
     _fuzzy_match env candidate tenant cell w1 = (Ok fuzzy_matches, w2) →
     _semantic_match env candidate tenant cell w2 = (Raise e, w3) →
     resolve_entity env data tenant cell HYBRID create_if_not_found w = (Error e, w3) ∧
     w_store w3 = w_store w).
Proof.
  split.
  - intros e w0 Hb. split.
    + unfold resolve_entity, resolve_entity_try, bind. by rewrite Hb.
    + pose proof (keeps_store_build_candidate env data HYBRID w) as H.
      by rewrite Hb in H.
  - intros candidate w0 ex w1 fz w2 e w3 Hb Hex Hfz Hsem. split.
    + rewrite (resolve_entity_steps _ _ _ _ _ _ _ _ _ Hb), find_matches_hybrid.
      unfold bind. by rewrite Hex, Hfz, Hsem.
    + pose proof (keeps_store_build_candidate env data HYBRID w) as H0.
      pose proof (keeps_store_exact candidate tenant cell w0) as H1.
      pose proof (keeps_store_fuzzy env candidate tenant cell w1) as H2.
      pose proof (keeps_store_semantic env candidate tenant cell w2) as H3.
      rewrite Hb in H0. rewrite Hex in H1. rewrite Hfz in H2. rewrite Hsem in H3.
      simpl in *. congruence.
Qed.

(** C1 (as stated) fails: the store holds Acme Corp, the exact and the fuzzy
    strategy each find it, the provider fails on the batch call of the
    semantic strategy, and the outcome is Error. *)
Lemma hybrid_semantic_failure_surfaces :
  flaky_candidate.1 = Ok hybrid_candidate ∧
  (∃ m, flaky_exact.1 = Ok [m] ∧ matched_entity_id m = "e-1") ∧
  (∃ m, flaky_fuzzy.1 = Ok [m] ∧ matched_entity_id m = "e-1") ∧
  flaky_semantic.1 = Raise ProviderError ∧
  (resolve_entity flaky_env acme_data "t-1" "c-1" HYBRID true acme_stored_world).1
  = Error ProviderError.
Proof.
  split_and!.
  - vm_compute; reflexivity.
  - exists (mkMatch "uuid-0" "e-1" 1 EXACT (mkDetails "Acme Corp" ∅ NoScore)).
    split; [vm_compute; reflexivity | reflexivity].
  - exists (mkMatch "uuid-0" "e-1" (inject_Z 100 / 100) FUZZY
              (mkDetails "Acme Corp" ∅ (FuzzyScore 100))).
    split; [vm_compute; reflexivity | reflexivity].
  - vm_compute; reflexivity.
  - vm_compute; reflexivity.
Qed.

Lemma hybrid_strategy_failure_is_error_witness :
  resolve_entity flaky_env acme_data "t-1" "c-1" HYBRID true acme_stored_world
    = (Error ProviderError, flaky_semantic.2) ∧
  w_store flaky_semantic.2 = w_store acme_stored_world.
Proof.
  destruct (hybrid_strategy_failure_is_error flaky_env acme_data "t-1" "c-1" true
              acme_stored_world) as [_ H].
  apply (H hybrid_candidate flaky_candidate.2
           [mkMatch "uuid-0" "e-1" 1 EXACT (mkDetails "Acme Corp" ∅ NoScore)]
           flaky_exact.2
           [mkMatch "uuid-0" "e-1" (inject_Z 100 / 100) FUZZY
              (mkDetails "Acme Corp" ∅ (FuzzyScore 100))]
           flaky_fuzzy.2 ProviderError flaky_semantic.2);
    vm_compute; reflexivity.
Defined.

(** ** The decision on the matches (C3) *)

Lemma find_matches_sorted env candidate tenant cell method w matches w1 :
  _find_matches env candidate tenant cell method w = (Ok matches, w1) →
  StronglySorted (desc confidence_score) matches.
Proof.
  unfold _find_matches. unfold bind at 1.
  match goal with
  | |- (match ?x with _ => _ end) = _ → _ => destruct x as [[ms|e] w']
  end; [|done].
  intros [= <- <-]. apply sort_desc_sorted.
Qed.

Lemma merge_entity_data_run env id data tenant cell w :
  _merge_entity_data env id data tenant cell w
  = match List.filter (by_id_scope id tenant cell) (w_store w) with
    | [] => (Raise (ValueError ("Entity " +:+ id +:+ " not found")),
             logged StoreQuery w)
    | existing :: _ =>
        match merge_attributes env (pe_attributes existing)
                (default ∅ (ed_attributes data)) with
        | Ok merged =>
            (Ok (mkEntity id (pe_name existing) (pe_entity_type existing) merged
                   tenant cell),
             mkWorld (with_attributes id tenant cell merged <$> w_store w)
               (w_cache w) (w_uuid w) (w_calls w ++ [StoreQuery; StoreUpdate]))
        | Raise e => (Raise e, logged StoreQuery w)
        end
    end.
Proof.
  unfold _merge_entity_data, bind, of_result. rewrite run_match_run. simpl.
  destruct (List.filter (by_id_scope id tenant cell) (w_store w)); [done|].
  destruct (merge_attributes env _ _); [|done].
  unfold logged. simpl. by rewrite <- app_assoc.
Qed.

Lemma no_good_match_run candidate tenant cell create matches w :
  no_good_match candidate tenant cell create matches w
  = if create then
      let new_entity :=
        mkEntity (uuid_of (w_uuid w)) (name candidate) (entity_type candidate)
          (attributes candidate) tenant cell in
      (Ok (Created new_entity 1 (take 5 matches)),
       mkWorld (w_store w ++ [new_entity]) (w_cache w) (S (w_uuid w))
         (w_calls w ++ [StoreCreate]))
    else (Ok (NoMatch (take 5 matches)), w).
Proof. by destruct create. Qed.




(** ** Tenant isolation (C2) *)

(** The strategies that read the store directly return only entities of
    the request's tenant and cell. *)
Lemma store_backed_matches_in_scope env candidate tenant cell w :
  (∀ matches w', _exact_match candidate tenant cell w = (Ok matches, w') →
     ∀ m, m ∈ matches →
       ∃ e, e ∈ w_store w ∧ pe_id e = matched_entity_id m ∧
            pe_tenant_id e = tenant ∧ pe_cell_id e = cell) ∧
  (∀ matches w', _fuzzy_match env candidate tenant cell w = (Ok matches, w') →
     ∀ m, m ∈ matches →
       ∃ e, e ∈ w_store w ∧ pe_id e = matched_entity_id m ∧
            pe_tenant_id e = tenant ∧ pe_cell_id e = cell).
Proof.
  split; intros matches w' Hrun m Hm.
  - rewrite exact_match_run in Hrun. injection Hrun as <- _.
    apply list_elem_of_fmap in Hm as (e & -> & He).
    apply take_elem, filter_elem in He as [He Hp].
    apply by_name_type_scope_true in Hp as (_ & _ & Ht & Hc). by exists e.
  - rewrite fuzzy_match_run in Hrun. injection Hrun as <- _.
    apply list_elem_of_omap in Hm as (e & He & Hrec).
    apply fuzzy_record_Some in Hrec as [_ ->].
    apply take_elem, filter_elem in He as [He Hp].
    apply by_type_scope_true in Hp as (_ & Ht & Hc). by exists e.
Qed.

(** C2 (defect in the code): the cache key joins type, tenant and cell with
    colons, so tenant [acme], cell [eu:1] and tenant [acme:eu], cell [1]
    share one key.  After a semantic resolution for the first scope has
    filled the cache, the semantic strategy run for the second scope returns
    a match on entity [e-1], which belongs to the first tenant, while the
    store holds nothing at all for the second scope. *)
Theorem cache_key_collision_crosses_tenants :
  cache_key "organization" "acme" "eu:1" = cache_key "organization" "acme:eu" "1" ∧
  (∃ entity, first_tenant_run.1 = Matched entity 1 SEMANTIC [] ∧ pe_id entity = "e-1") ∧
  second_tenant_candidate.1
    = Ok (mkCandidate "uuid-1" "Acme Corp" "organization" ∅
            (Some (text_vec "Acme Corp")) 1) ∧
  (∃ m, second_tenant_matches.1 = Ok [m] ∧ matched_entity_id m = "e-1" ∧
        matched_name (match_details m) = "Acme Corp") ∧
  (∀ e, e ∈ w_store second_tenant_matches.2 → pe_id e = "e-1" →
        pe_tenant_id e = "acme" ∧ pe_cell_id e = "eu:1") ∧
  List.filter (by_type_scope "organization" "acme:eu" "1")
    (w_store second_tenant_matches.2) = [].
Proof.
  split_and!.
  - reflexivity.
  - exists (mkEntity "e-1" "Acme Corp" "organization" ∅ "acme" "eu:1").
    split; [vm_compute; reflexivity | reflexivity].
  - vm_compute; reflexivity.
  - exists (mkMatch "uuid-1" "e-1" 1 SEMANTIC
              (mkDetails "Acme Corp" ∅ (SemanticSimilarity 1))).
    split; [vm_compute; reflexivity | split; reflexivity].
  - intros e He _.
    assert (Hs : w_store second_tenant_matches.2
                 = [mkEntity "e-1" "Acme Corp" "organization" ∅ "acme" "eu:1"])
      by (vm_compute; reflexivity).
    rewrite Hs in He. apply list_elem_of_singleton in He as ->. done.
  - vm_compute; reflexivity.
Qed.

(** * Further properties of the service *)

(** ** Frames *)

Lemma preserves_ret {X A} (component : World → X) (a : A) :
  preserves component (ret a).
Proof. done. Qed.

Lemma preserves_raise {X A} (component : World → X) (e : Exn) :
  preserves component (@raise A e).
Proof. done. Qed.

Lemma preserves_bind {X A B} (component : World → X) (c : M A) (k : A → M B) :
  preserves component c → (∀ a, preserves component (k a)) →
  preserves component (bind c k).
Proof.
  intros Hc Hk w. unfold bind. specialize (Hc w).
  destruct (c w) as [[a|e] w']; simpl in *; [|done]. by rewrite Hk.
Qed.

Lemma preserves_try {X A} (component : World → X) (c : M A) (h : Exn → M A) :
  preserves component c → (∀ e, preserves component (h e)) →
  preserves component (try_except c h).
Proof.
  intros Hc Hh w. unfold try_except. specialize (Hc w).
  destruct (c w) as [[a|e] w']; simpl in *; [done|]. by rewrite Hh.
Qed.

Lemma preserves_of_option {X A} (component : World → X) (e : Exn) (o : option A) :
  preserves component (of_option e o).
Proof. by destruct o. Qed.

Lemma preserves_for_each {X A B} (component : World → X)
    (body : list B → A → M (list B)) l acc :
  (∀ acc x, preserves component (body acc x)) →
  preserves component (for_each body l acc).
Proof.
  intros Hb. revert acc. induction l as [|x l IH]; intros acc; simpl.
  - apply preserves_ret.
  - apply preserves_bind; auto.
Qed.

Ltac frame :=
  repeat first
    [ apply preserves_ret
    | apply preserves_raise
    | apply preserves_of_option
    | apply preserves_bind; [|intros ?]
    | apply preserves_try; [|intros ?]
    | apply preserves_for_each; intros ? ?
    | match goal with
      | |- preserves _ (match ?x with _ => _ end) => destruct x
      end
    | by intros ? ].

Lemma exact_match_keeps_cache candidate tenant cell :
  preserves w_cache (_exact_match candidate tenant cell).
Proof. unfold _exact_match, run_match. frame. Qed.

Lemma fuzzy_match_keeps_cache env candidate tenant cell :
  preserves w_cache (_fuzzy_match env candidate tenant cell).
Proof. unfold _fuzzy_match, run_match. frame. Qed.

Lemma clustering_match_keeps_cache env candidate tenant cell :
  preserves w_cache (_ml_clustering_match env candidate tenant cell).
Proof.
  unfold _ml_clustering_match, _get_entities_for_clustering, run_match. frame.
Qed.

Lemma build_candidate_keeps_cache env data method :
  preserves w_cache (build_candidate env data method).
Proof.
  unfold build_candidate, _generate_embedding, model_encode, EntityType. frame.
Qed.

(** ** What a resolution does to the store *)

Lemma decide_outcome_store env data candidate tenant cell create matches w :
  match decide_outcome env data candidate tenant cell create matches w with
  | (Ok (Matched e _ _ _), w') =>
      w_store w' = with_attributes (pe_id e) tenant cell (pe_attributes e) <$> w_store w
  | (Ok (Created e _ _), w') =>
      create = true ∧ w_store w' = w_store w ++ [e] ∧
      pe_tenant_id e = tenant ∧ pe_cell_id e = cell
  | (Ok (NoMatch _), w') => create = false ∧ w_store w' = w_store w
  | (Ok (Error _), w') => False
  | (Raise _, w') => w_store w' = w_store w
  end.
Proof.
  assert (Hno : match no_good_match candidate tenant cell create matches w with
    | (Ok (Matched e _ _ _), w') =>
        w_store w' = with_attributes (pe_id e) tenant cell (pe_attributes e) <$> w_store w
    | (Ok (Created e _ _), w') =>
        create = true ∧ w_store w' = w_store w ++ [e] ∧
        pe_tenant_id e = tenant ∧ pe_cell_id e = cell
    | (Ok (NoMatch _), w') => create = false ∧ w_store w' = w_store w
    | (Ok (Error _), w') => False
    | (Raise _, w') => w_store w' = w_store w
    end).
  { rewrite no_good_match_run. by destruct create. }
  unfold decide_outcome. destruct matches as [|first rest]; [done|].
  destruct (Qle_bool _ _); [|done].
  unfold bind. rewrite merge_entity_data_run.
  destruct (List.filter _ (w_store w)); [done|].
  by destruct (merge_attributes env _ _).
Qed.

Lemma resolve_entity_store env data tenant cell method create w :
  match resolve_entity env data tenant cell method create w with
  | (Matched e _ _ _, w') =>
      w_store w' = with_attributes (pe_id e) tenant cell (pe_attributes e) <$> w_store w
  | (Created e _ _, w') =>
      create = true ∧ w_store w' = w_store w ++ [e] ∧
      pe_tenant_id e = tenant ∧ pe_cell_id e = cell
  | (NoMatch _, w') => create = false ∧ w_store w' = w_store w
  | (Error _, w') => w_store w' = w_store w
  end.
Proof.
  unfold resolve_entity, resolve_entity_try, bind.
  pose proof (keeps_store_build_candidate env data method w) as H0.
  destruct (build_candidate env data method w) as [[candidate|e] w0]; simpl in H0;
    [|done].
  pose proof (keeps_store_find_matches env candidate tenant cell method w0) as H1.
  destruct (_find_matches env candidate tenant cell method w0) as [[matches|e] w1];
    simpl in H1; [|congruence].
  pose proof (decide_outcome_store env data candidate tenant cell create matches w1) as H2.
  assert (Hs : w_store w1 = w_store w) by congruence.
  destruct (decide_outcome env data candidate tenant cell create matches w1)
    as [[[]|e] w2]; rewrite <- ?Hs; done.
Qed.

(** X1: the effect of one resolution on the entity store, by outcome.
    Matched rewrites the attributes of the nodes with the returned id in the
    request's tenant and cell and nothing else; Created, possible only with
    [create_if_not_found], appends the returned entity, which carries the
    request's tenant and cell; NoMatch, possible only without
    [create_if_not_found], and Error leave the store as it was. *)
Theorem resolve_entity_store_effect (env : Env) (data : EntityData)
    (tenant cell : string) (method : MatchMethod) (create_if_not_found : bool)
    (w : World) :
  let result := resolve_entity env data tenant cell method create_if_not_found w in
  match result.1 with
  | Matched e _ _ _ =>
      w_store result.2
      = with_attributes (pe_id e) tenant cell (pe_attributes e) <$> w_store w
  | Created e _ _ =>
      create_if_not_found = true ∧ w_store result.2 = w_store w ++ [e] ∧
      pe_tenant_id e = tenant ∧ pe_cell_id e = cell
  | NoMatch _ => create_if_not_found = false ∧ w_store result.2 = w_store w
  | Error _ => w_store result.2 = w_store w
  end.
Proof.
  intros result. subst result.
  pose proof (resolve_entity_store env data tenant cell method create_if_not_found w) as H.
  by destruct (resolve_entity env data tenant cell method create_if_not_found w)
    as [[] w'].
Qed.

(** X2: a resolution never removes or reorders stored entities, never
    changes the id, name, type, tenant or cell of one, and leaves every
    entity of another tenant or cell exactly as it was. *)
Theorem resolve_entity_keeps_identities (env : Env) (data : EntityData)
    (tenant cell : string) (method : MatchMethod) (create_if_not_found : bool)
    (w : World) (i : nat) (e : PersistedEntity) :
  w_store w !! i = Some e →
  ∃ e',
    w_store (resolve_entity env data tenant cell method create_if_not_found w).2 !! i
      = Some e' ∧
    same_identity e e' ∧
    ((pe_tenant_id e ≠ tenant ∨ pe_cell_id e ≠ cell) → e' = e).
Proof.
  intros He.
  pose proof (resolve_entity_store env data tenant cell method create_if_not_found w) as H.
  destruct (resolve_entity env data tenant cell method create_if_not_found w)
    as [[m ? ? ?|n ? ?|?|?] w']; simpl.
  - rewrite H, list_lookup_fmap, He. simpl. eexists. split; [done|].
    unfold with_attributes.
    destruct (by_id_scope (pe_id m) tenant cell e) eqn:Hp; [|done].
    apply by_id_scope_true in Hp as (_ & Ht & Hc).
    split; [done|]. intros [? | ?]; done.
  - destruct H as (_ & -> & _). exists e.
    split; [|done]. apply lookup_app_l_Some. done.
  - destruct H as [_ ->]. by exists e.
  - rewrite H. by exists e.
Qed.

Lemma resolve_entity_keeps_identities_witness :
  ∃ e',
    w_store (resolve_entity stub_env acme_data "t-1" "c-1" EXACT true
               two_tenant_world).2 !! 1%nat = Some e' ∧
    same_identity
      (mkEntity "e-1" "Acme Corp" "organization" registered_attrs "t-2" "c-1") e' ∧
    (("t-2" ≠ "t-1" ∨ "c-1" ≠ "c-1") →
     e' = mkEntity "e-1" "Acme Corp" "organization" registered_attrs "t-2" "c-1").
Proof.
  apply (resolve_entity_keeps_identities stub_env acme_data "t-1" "c-1" EXACT true
           two_tenant_world 1
           (mkEntity "e-1" "Acme Corp" "organization" registered_attrs "t-2" "c-1")).
  reflexivity.
Defined.

(** ** Missing keys *)

(** X3: an observation without a [name] key, or with a name and without an
    [entity_type] key, ends in the Error outcome carrying the [KeyError] of
    that key, before any downstream call: one uuid is spent and the store,
    the cache and the trace of calls are as they were. *)
Theorem missing_key_is_error (env : Env) (data : EntityData)
    (tenant cell : string) (method : MatchMethod) (create_if_not_found : bool)
    (w : World) :
  ed_name data = None ∨ ed_entity_type data = None →
  resolve_entity env data tenant cell method create_if_not_found w
  = (Error (KeyError (match ed_name data with
                      | None => "name"
                      | Some _ => "entity_type"
                      end)),
     uuid_spent w).
Proof.
  intros H. unfold resolve_entity, resolve_entity_try, build_candidate, bind, uuid4.
  destruct (ed_name data) as [nm|]; [|done].
  destruct H as [H | H]; [done|]. by rewrite H.
Qed.

Lemma missing_key_is_error_witness :
  resolve_entity stub_env unnamed_data "t-1" "c-1" HYBRID true acme_stored_world
  = (Error (KeyError "name"), uuid_spent acme_stored_world).
Proof.
  apply (missing_key_is_error stub_env unnamed_data "t-1" "c-1" HYBRID true
           acme_stored_world).
  left. reflexivity.
Defined.

(** ** The exact strategy *)

Lemma filter_nonempty {A} (p : A → bool) (l : list A) :
  List.filter p l ≠ [] ↔ ∃ x, x ∈ l ∧ p x = true.
Proof.
  split.
  - destruct (List.filter p l) as [|x k] eqn:E; [done|]. intros _.
    exists x. apply filter_elem. rewrite E. apply elem_of_cons. by left.
  - intros (x & Hx) E. apply filter_elem in Hx. rewrite E in Hx.
    by apply elem_of_nil in Hx.
Qed.

Lemma fmap_nonempty {A B} (f : A → B) (l : list A) : f <$> l ≠ [] ↔ l ≠ [].
Proof. by destruct l. Qed.

Lemma take_nonempty {A} (n : nat) (l : list A) : take (S n) l ≠ [] ↔ l ≠ [].
Proof. by destruct l. Qed.

(** X4: the exact strategy issues one store query and returns at most ten
    matches; it returns at least one exactly when the store holds an entity
    with the candidate's name and type in the request's tenant and cell;
    every match has confidence 1, method EXACT and refers to such an
    entity. *)
Theorem exact_match_profile (candidate : EntityCandidate) (tenant cell : string)
    (w : World) :
  ∃ matches,
    _exact_match candidate tenant cell w = (Ok matches, logged StoreQuery w) ∧
    (length matches <= 10)%nat ∧
    (matches ≠ [] ↔
     ∃ e, e ∈ w_store w ∧ pe_name e = name candidate ∧
          pe_entity_type e = entity_type candidate ∧
          pe_tenant_id e = tenant ∧ pe_cell_id e = cell) ∧
    ∀ m, m ∈ matches →
      confidence_score m = 1%Q ∧ match_method m = EXACT ∧
      candidate_entity_id m = entity_id candidate ∧
      ∃ e, e ∈ w_store w ∧ pe_id e = matched_entity_id m ∧
           pe_name e = name candidate ∧
           pe_entity_type e = entity_type candidate ∧
           pe_tenant_id e = tenant ∧ pe_cell_id e = cell.
Proof.
  eexists. split; [apply exact_match_run|]. split_and!.
  - rewrite length_fmap, length_take. lia.
  - rewrite fmap_nonempty, take_nonempty, filter_nonempty.
    split; intros (e & He & Hp); exists e.
    + apply by_name_type_scope_true in Hp. tauto.
    + split; [done|]. apply by_name_type_scope_true. tauto.
  - intros m (e & -> & He)%list_elem_of_fmap. simpl. split_and!; try done.
    apply take_elem, filter_elem in He as [He Hp].
    apply by_name_type_scope_true in Hp. exists e. tauto.
Qed.

(** ** Aggregation again *)

Lemma sort_desc_sorted_id {A} (key : A → Q) (l : list A) :
  StronglySorted (desc key) l → Py.sort_desc key l = l.
Proof.
  induction 1 as [|x l Hl IH Hx]; [done|]. simpl. rewrite IH.
  destruct l as [|y l]; [done|]. simpl.
  apply Forall_cons in Hx as [Hy _]. unfold desc in Hy.
  apply Qle_bool_iff in Hy. by rewrite Hy.
Qed.

Lemma dict_set_fresh {V} (k : string) (v : V) (d : list (string * V)) :
  Py.dict_get k d = None → Py.dict_set k v d = d ++ [(k, v)].
Proof.
  induction d as [|[k0 v0] d IH]; simpl; [done|].
  destruct (String.eqb k k0); [done|]. intros H. by rewrite IH.
Qed.

Lemma dedup_fold_fresh ms (d : list (string * EntityMatch)) :
  NoDup (d.*1 ++ (matched_entity_id <$> ms)) →
  fold_left dedup_step ms d = d ++ ((fun m => (matched_entity_id m, m)) <$> ms).
Proof.
  revert d. induction ms as [|m ms IH]; intros d Hnd; simpl.
  - by rewrite app_nil_r.
  - assert (Hfresh : Py.dict_get (matched_entity_id m) d = None).
    { apply dict_get_None. apply NoDup_app in Hnd as (_ & Hdis & _).
      intros Hin. apply (Hdis _ Hin). apply elem_of_cons. by left. }
    unfold dedup_step at 2. rewrite Hfresh, dict_set_fresh by done.
    rewrite IH.
    + by rewrite <- app_assoc.
    + rewrite fmap_app. simpl. rewrite <- app_assoc. done.
Qed.

Lemma deduplicate_NoDup_id ms :
  NoDup (matched_entity_id <$> ms) → _deduplicate_matches ms = ms.
Proof.
  intros Hnd. rewrite deduplicate_fold, dedup_fold_fresh by done.
  unfold Py.dict_values. simpl. rewrite <- list_fmap_compose.
  apply list_fmap_id.
Qed.

Lemma dict_set_length {V} (k : string) (v : V) (d : list (string * V)) :
  (length (Py.dict_set k v d) <= S (length d))%nat.
Proof.
  induction d as [|[k0 v0] d IH]; simpl; [lia|].
  destruct (String.eqb k k0); simpl; lia.
Qed.

Lemma dedup_fold_length ms (d : list (string * EntityMatch)) :
  (length (fold_left dedup_step ms d) <= length d + length ms)%nat.
Proof.
  revert d. induction ms as [|m ms IH]; intros d; simpl; [lia|].
  etransitivity; [apply IH|].
  assert (length (dedup_step d m) <= S (length d))%nat; [|lia].
  unfold dedup_step. destruct (Py.dict_get _ d); [destruct (Qle_bool _ _)|];
    auto using dict_set_length.
Qed.

(** X5: aggregation, the deduplication followed by the sort, is idempotent
    and never returns more matches than it was given. *)
Theorem aggregate_idempotent (ms : list EntityMatch) :
  aggregate (aggregate ms) = aggregate ms ∧
  (length (aggregate ms) <= length ms)%nat.
Proof.
  split.
  - unfold aggregate at 1. rewrite deduplicate_NoDup_id.
    + apply sort_desc_sorted_id, sort_desc_sorted.
    + unfold aggregate. rewrite sort_desc_perm. apply deduplicate_NoDup.
  - unfold aggregate. rewrite sort_desc_perm, deduplicate_fold.
    unfold Py.dict_values. rewrite length_fmap.
    etransitivity; [apply dedup_fold_length|]. simpl. lia.
Qed.

(** ** The merged attribute map *)

(** X6: the merge never drops an attribute: whenever the merge returns,
    the keys of the merged map are the keys of the existing entity together
    with the keys of the new data. *)
Theorem merge_attributes_keys (env : Env) (existing new merged : gmap string PyVal) :
  merge_attributes env existing new = Ok merged →
  dom merged = dom existing ∪ dom new.
Proof.
  intros Hm. apply set_eq. intros k.
  rewrite elem_of_union, !elem_of_dom, (merge_attributes_lookup _ _ _ _ _ Hm).
  unfold merged_value.
  destruct (new !! k) as [value|], (existing !! k) as [old|]; simpl.
  - split; [intros _; left; eauto|]. intros _.
    destruct (negb (Py.truthy old)); [eauto|]. destruct value, old; eauto.
  - split; [intros _; right; eauto | eauto].
  - split; [intros _; left; eauto | eauto].
  - split; [intros [? ?]; done | intros [[? ?] | [? ?]]; done].
Qed.

Lemma merge_attributes_keys_witness :
  dom merged_attrs = dom stored_attrs ∪ dom observed_attrs.
Proof.
  apply (merge_attributes_keys stub_env stored_attrs observed_attrs merged_attrs).
  vm_compute; reflexivity.
Defined.

(** ** Resolving the same observation twice *)

Lemma missing_name_error env data tenant cell method create w :
  ed_name data = None →
  resolve_entity env data tenant cell method create w
  = (Error (KeyError "name"), uuid_spent w).
Proof.
  intros H. unfold resolve_entity, resolve_entity_try, build_candidate, bind, uuid4.
  by rewrite H.
Qed.

Lemma missing_type_error env data tenant cell method create w nm :
  ed_name data = Some nm → ed_entity_type data = None →
  resolve_entity env data tenant cell method create w
  = (Error (KeyError "entity_type"), uuid_spent w).
Proof.
  intros Hn H. unfold resolve_entity, resolve_entity_try, build_candidate, bind, uuid4.
  by rewrite Hn, H.
Qed.

Lemma invalid_type_error env data tenant cell method create w nm raw :
  ed_name data = Some nm → ed_entity_type data = Some raw →
  existsb (String.eqb raw) (entity_types env) = false →
  resolve_entity env data tenant cell method create w
  = (Error (ValueError (repr_str env raw +:+ " is not a valid EntityType")),
     uuid_spent w).
Proof.
  intros Hn Ht Hv.
  unfold resolve_entity, resolve_entity_try, build_candidate, bind, uuid4, EntityType.
  rewrite Hn, Ht. simpl. by rewrite Hv.
Qed.

Lemma build_candidate_plain env data method w nm raw :
  needs_embedding method = false →
  ed_name data = Some nm → ed_entity_type data = Some raw →
  existsb (String.eqb raw) (entity_types env) = true →
  build_candidate env data method w
  = (Ok (mkCandidate (uuid_of (w_uuid w)) nm raw (default ∅ (ed_attributes data))
           None (default 1%Q (ed_confidence data))),
     uuid_spent w).
Proof.
  intros Hm Hn Ht Hv. unfold build_candidate, bind, uuid4, EntityType.
  rewrite Hn, Ht. simpl. rewrite Hv. simpl. by rewrite Hm.
Qed.

Lemma resolve_exact_unfold env data tenant cell create w nm raw :
  ed_name data = Some nm → ed_entity_type data = Some raw →
  existsb (String.eqb raw) (entity_types env) = true →
  let candidate :=
    mkCandidate (uuid_of (w_uuid w)) nm raw (default ∅ (ed_attributes data))
      None (default 1%Q (ed_confidence data)) in
  resolve_entity env data tenant cell EXACT create w
  = match decide_outcome env data candidate tenant cell create
            (Py.sort_desc confidence_score
               (exact_match_of candidate
                <$> take 10 (List.filter (by_name_type_scope nm raw tenant cell)
                               (w_store w))))
            (logged StoreQuery (uuid_spent w)) with
    | (Ok outcome, w2) => (outcome, w2)
    | (Raise e, w2) => (Error e, w2)
    end.
Proof.
  intros Hn Ht Hv candidate.
  rewrite (resolve_entity_steps _ _ _ _ _ _ _ candidate (uuid_spent w))
    by (by apply build_candidate_plain).
  unfold _find_matches, bind. rewrite exact_match_run. done.
Qed.

Lemma max_by_elem {A} (key : A → Q) (x : A) (l : list A) :
  Py.max_by key x l ∈ x :: l.
Proof.
  unfold Py.max_by. revert x. induction l as [|y l IH]; intros x; simpl.
  - apply elem_of_cons. by left.
  - destruct (Qle_bool (key y) (key x)).
    + specialize (IH x). apply elem_of_cons in IH as [-> | IH].
      * apply elem_of_cons. by left.
      * apply elem_of_cons. right. apply elem_of_cons. by right.
    + apply elem_of_cons. right. apply IH.
Qed.

(** With a row at hand the exact method never creates: the decision takes
    the merge branch. *)
Lemma decide_exact_rows_not_created env data candidate tenant cell create
    (r : PersistedEntity) rows w new conf alts w' :
  decide_outcome env data candidate tenant cell create
    (Py.sort_desc confidence_score (exact_match_of candidate <$> r :: rows)) w
  ≠ (Ok (Created new conf alts), w').
Proof.
  assert (Hall : Forall (fun m => confidence_score m = 1%Q)
                   (Py.sort_desc confidence_score (exact_match_of candidate <$> r :: rows))).
  { rewrite sort_desc_perm. apply Forall_fmap, Forall_true. done. }
  destruct (Py.sort_desc confidence_score (exact_match_of candidate <$> r :: rows))
    as [|first rest] eqn:E.
  { pose proof (sort_desc_perm confidence_score (exact_match_of candidate <$> r :: rows)) as Hp.
    rewrite E in Hp. by apply Permutation_nil_l in Hp. }
  unfold decide_outcome.
  pose proof (max_by_elem confidence_score first rest) as Hin.
  rewrite Forall_forall in Hall. rewrite (Hall _ Hin).
  change (Qle_bool similarity_threshold 1) with true. cbv iota.
  unfold bind. rewrite merge_entity_data_run.
  destruct (List.filter _ (w_store w)); [done|].
  by destruct (merge_attributes env _ _).
Qed.

Lemma hashable_store_elem (w : World) (x : PersistedEntity) :
  hashable_store w = true → x ∈ w_store w →
  hashable_lists (pe_attributes x) = true.
Proof.
  unfold hashable_store. rewrite forallb_forall. intros H Hx.
  apply (H x). by apply list_elem_of_In.
Qed.

(** X7: with the exact method, and with no dict or nested list in the
    attribute lists of the store and of the observation, an observation that
    was just Created is Matched when it is resolved again in the same tenant
    and cell: the second resolution returns the id of the created entity
    with confidence 1 and adds nothing to the store. *)
Theorem created_entity_is_matched_next (env : Env) (data : EntityData)
    (tenant cell : string) (create_if_not_found : bool) (w : World)
    (new : PersistedEntity) (conf : Q) (alts : list EntityMatch) (w1 : World) :
  hashable_store w = true →
  hashable_lists (default ∅ (ed_attributes data)) = true →
  resolve_entity env data tenant cell EXACT true w = (Created new conf alts, w1) →
  ∃ e w2,
    resolve_entity env data tenant cell EXACT create_if_not_found w1
      = (Matched e 1 EXACT [], w2) ∧
    pe_id e = pe_id new ∧
    length (w_store w2) = length (w_store w1).
Proof.
  intros Hstore Hdata Hfirst.
  destruct (ed_name data) as [nm|] eqn:Hn.
  2:{ rewrite missing_name_error in Hfirst by done. done. }
  destruct (ed_entity_type data) as [raw|] eqn:Ht.
  2:{ rewrite (missing_type_error _ _ _ _ _ _ _ nm) in Hfirst by done. done. }
  destruct (existsb (String.eqb raw) (entity_types env)) eqn:Hv.
  2:{ rewrite (invalid_type_error _ _ _ _ _ _ _ nm raw) in Hfirst by done. done. }
  rewrite (resolve_exact_unfold _ _ _ _ _ _ nm raw) in Hfirst by done.
  simpl in Hfirst.
  destruct (take 10 (List.filter (by_name_type_scope nm raw tenant cell) (w_store w)))
    as [|r rows] eqn:Hrows.
  2:{ exfalso.
      match type of Hfirst with
      | match ?d with _ => _ end = _ =>
          destruct d as [[o|ex] w'] eqn:Hd; [|done]
      end.
      injection Hfirst as -> ->.
      by eapply decide_exact_rows_not_created. }
  assert (Hnone : List.filter (by_name_type_scope nm raw tenant cell) (w_store w) = []).
  { destruct (List.filter _ (w_store w)); [done | discriminate Hrows]. }
  cbn in Hfirst. injection Hfirst as <- <- <- <-.
  rewrite (resolve_exact_unfold _ _ _ _ _ _ nm raw) by done.
  cbn [w_store w_uuid uuid_spent logged].
  rewrite List.filter_app, Hnone. cbn [List.filter app].
  assert (Hself : by_name_type_scope nm raw tenant cell
                    (mkEntity (uuid_of (S (w_uuid w))) nm raw
                       (default ∅ (ed_attributes data)) tenant cell) = true).
  { apply by_name_type_scope_true. done. }
  cbn [uuid4 w_uuid] in *. rewrite Hself. cbn [take fmap list_fmap Py.sort_desc
    fold_right Py.insert_desc decide_outcome Py.max_by fold_left exact_match_of
    confidence_score matched_entity_id match_method pe_id].
  change (Qle_bool similarity_threshold 1) with true. cbv iota.
  unfold bind. rewrite merge_entity_data_run.
  cbn [w_store logged uuid_spent]. rewrite List.filter_app.
  assert (Hid : by_id_scope (uuid_of (S (w_uuid w))) tenant cell
                  (mkEntity (uuid_of (S (w_uuid w))) nm raw
                     (default ∅ (ed_attributes data)) tenant cell) = true).
  { apply by_id_scope_true. done. }
  cbn [List.filter]. rewrite Hid.
  assert (Hmerge : ∀ x, x ∈ List.filter (by_id_scope (uuid_of (S (w_uuid w))) tenant cell)
                              (w_store w) →
            ∃ merged, merge_attributes env (pe_attributes x)
                        (default ∅ (ed_attributes data)) = Ok merged).
  { intros x [Hx _]%filter_elem. apply merge_attributes_returns. intros k.
    apply hashable_lists_merge; [by eapply hashable_store_elem | done]. }
  destruct (List.filter (by_id_scope (uuid_of (S (w_uuid w))) tenant cell) (w_store w))
    as [|x xs]; cbn [app].
  - destruct (merge_attributes_returns env (default ∅ (ed_attributes data))
                (default ∅ (ed_attributes data))) as [merged Hm].
    { intros k. by apply hashable_lists_merge. }
    cbn [pe_attributes]. rewrite Hm. eexists _, _. split; [reflexivity|].
    split; [reflexivity | exact (length_fmap _ _)].
  - destruct (Hmerge x) as [merged Hm]; [apply elem_of_cons; by left|].
    rewrite Hm. eexists _, _. split; [reflexivity|].
    split; [reflexivity | exact (length_fmap _ _)].
Qed.

Lemma created_entity_is_matched_next_witness :
  ∃ e w2,
    resolve_entity stub_env attributed_data "t-1" "c-1" EXACT false created_world
      = (Matched e 1 EXACT [], w2) ∧
    pe_id e = "uuid-1" ∧
    length (w_store w2) = 1%nat.
Proof.
  apply (created_entity_is_matched_next stub_env attributed_data "t-1" "c-1" false
           empty_world
           (mkEntity "uuid-1" "Acme Corp" "organization" observed_attrs "t-1" "c-1")
           1 [] created_world).
  - reflexivity.
  - vm_compute; reflexivity.
  - vm_compute; reflexivity.
Defined.

(** ** The embedding cache *)

Lemma generate_run env ty tenant cell w :
  _generate_and_cache_embeddings env ty tenant cell w
  = let w1 := logged StoreQuery w in
    match scoped_rows 1000 ty tenant cell w with
    | [] => (Ok (mkCache [] []), w1)
    | r :: rs =>
        let rows := r :: rs in
        let w2 := logged (EncodeCall (cache_texts env rows)) w1 in
        match encode env (length (w_calls w1)) (cache_texts env rows) with
        | None => (Raise ProviderError, w2)
        | Some vs =>
            let data := mkCache (cache_infos rows) vs in
            let w3 := logged (CacheSet (cache_key ty tenant cell)) w2 in
            if cache_down env (length (w_calls w2)) then (Ok data, w3)
            else (Ok data,
                  mkWorld (w_store w3) (<[cache_key ty tenant cell := data]> (w_cache w3))
                    (w_uuid w3) (w_calls w3))
        end
    end.
Proof.
  unfold _generate_and_cache_embeddings, bind at 1. rewrite run_match_run.
  fold (scoped_rows 1000 ty tenant cell w).
  destruct (scoped_rows 1000 ty tenant cell w) as [|r rs]; [done|].
  cbv zeta. fold (cache_infos (r :: rs)). fold (cache_texts env (r :: rs)).
  unfold bind at 1, model_encode, bind at 1, calls_so_far, bind at 1, log_call.
  destruct (encode env _ _) as [vs|]; [|done]. simpl.
  unfold bind at 1, try_except, redis_setex, bind at 1, calls_so_far, bind at 1, log_call.
  by destruct (cache_down env _).
Qed.

Lemma get_cached_run env ty tenant cell w :
  _get_cached_embeddings env ty tenant cell w
  = let w1 := logged (CacheGet (cache_key ty tenant cell)) w in
    if cache_down env (length (w_calls w)) then
      _generate_and_cache_embeddings env ty tenant cell w1
    else
      match w_cache w !! cache_key ty tenant cell with
      | Some data => (Ok data, w1)
      | None => _generate_and_cache_embeddings env ty tenant cell w1
      end.
Proof.
  unfold _get_cached_embeddings, bind at 1, try_except, redis_get, bind at 1,
    calls_so_far, bind at 1, log_call.
  destruct (cache_down env _); [done|]. simpl.
  by destruct (w_cache w !! cache_key ty tenant cell).
Qed.

(** X8: with a reachable cache, embeddings that [_get_cached_embeddings]
    returned for at least one entity are served from the cache the next
    time: the second call returns the same data with a single cache read,
    without querying the store or calling the provider. *)
Theorem cached_embeddings_are_reused (env : Env) (ty tenant cell : string)
    (w : World) (data : CacheData) (w1 : World) :
  (∀ n, cache_down env n = false) →
  _get_cached_embeddings env ty tenant cell w = (Ok data, w1) →
  cd_entities data ≠ [] →
  _get_cached_embeddings env ty tenant cell w1
  = (Ok data, logged (CacheGet (cache_key ty tenant cell)) w1).
Proof.
  intros Hup Hfirst Hne. rewrite get_cached_run in Hfirst |- *.
  rewrite !Hup in *. cbv zeta in *.
  destruct (w_cache w !! cache_key ty tenant cell) as [d|] eqn:Hc.
  - injection Hfirst as <- <-. simpl. by rewrite Hc.
  - rewrite generate_run in Hfirst. cbv zeta in Hfirst.
    destruct (scoped_rows 1000 ty tenant cell _) as [|r rs].
    + injection Hfirst as <- <-. done.
    + destruct (encode env _ _) as [vs|]; [|done].
      rewrite Hup in Hfirst. injection Hfirst as <- <-. simpl.
      by rewrite lookup_insert_eq.
Qed.

Lemma cached_embeddings_are_reused_witness :
  _get_cached_embeddings stub_env "organization" "t-1" "c-1"
    (_get_cached_embeddings stub_env "organization" "t-1" "c-1" acme_stored_world).2
  = (Ok (mkCache [mkInfo "e-1" "Acme Corp" ∅] [text_vec "Acme Corp"]),
     logged (CacheGet (cache_key "organization" "t-1" "c-1"))
       (_get_cached_embeddings stub_env "organization" "t-1" "c-1" acme_stored_world).2).
Proof.
  apply (cached_embeddings_are_reused stub_env "organization" "t-1" "c-1"
           acme_stored_world).
  - reflexivity.
  - vm_compute; reflexivity.
  - discriminate.
Defined.

(** X9: when the store holds no entity of the type in the scope and the
    cache has no entry, [_get_cached_embeddings] returns empty data after a
    cache read and a store query; the provider is not called and nothing is
    written to the cache, so the next call queries the store again. *)
Theorem empty_scope_is_not_cached (env : Env) (ty tenant cell : string) (w : World) :
  scoped_rows 1000 ty tenant cell w = [] →
  w_cache w !! cache_key ty tenant cell = None →
  _get_cached_embeddings env ty tenant cell w
  = (Ok (mkCache [] []),
     mkWorld (w_store w) (w_cache w) (w_uuid w)
       (w_calls w ++ [CacheGet (cache_key ty tenant cell); StoreQuery])).
Proof.
  intros Hrows Hc. rewrite get_cached_run, Hc. cbv zeta.
  assert (Hgen : _generate_and_cache_embeddings env ty tenant cell
                   (logged (CacheGet (cache_key ty tenant cell)) w)
                 = (Ok (mkCache [] []),
                    mkWorld (w_store w) (w_cache w) (w_uuid w)
                      (w_calls w ++ [CacheGet (cache_key ty tenant cell); StoreQuery]))).
  { rewrite generate_run. cbv zeta.
    change (scoped_rows 1000 ty tenant cell (logged _ w))
      with (scoped_rows 1000 ty tenant cell w).
    rewrite Hrows. unfold logged. simpl. by rewrite <- app_assoc. }
  rewrite Hgen. by destruct (cache_down env _).
Qed.

Lemma empty_scope_is_not_cached_witness :
  _get_cached_embeddings stub_env "person" "t-1" "c-1" acme_stored_world
  = (Ok (mkCache [] []),
     mkWorld [acme_stored] ∅ 0
       [CacheGet (cache_key "person" "t-1" "c-1"); StoreQuery]).
Proof.
  apply (empty_scope_is_not_cached stub_env "person" "t-1" "c-1" acme_stored_world).
  - vm_compute; reflexivity.
  - vm_compute; reflexivity.
Defined.

(** X10: an unreachable cache is not fatal: when every cache call fails and
    the provider answers, [_get_cached_embeddings] still returns the
    entities of the scope with their embeddings, computed from the store,
    and leaves the cache and the store as they were. *)
Theorem cache_outage_is_absorbed (env : Env) (ty tenant cell : string) (w : World)
    (r : PersistedEntity) (rs : list PersistedEntity) (vs : list Vec) :
  (∀ n, cache_down env n = true) →
  scoped_rows 1000 ty tenant cell w = r :: rs →
  (∀ n, encode env n (cache_texts env (r :: rs)) = Some vs) →
  ∃ w',
    _get_cached_embeddings env ty tenant cell w
      = (Ok (mkCache (cache_infos (r :: rs)) vs), w') ∧
    w_cache w' = w_cache w ∧ w_store w' = w_store w.
Proof.
  intros Hdown Hrows Henc. rewrite get_cached_run, Hdown, generate_run. cbv zeta.
  change (scoped_rows 1000 ty tenant cell (logged _ w))
    with (scoped_rows 1000 ty tenant cell w).
  rewrite Hrows, Henc, Hdown. eexists. split; [reflexivity | done].
Qed.

Lemma cache_outage_is_absorbed_witness :
  ∃ w',
    _get_cached_embeddings cacheless_env "organization" "t-1" "c-1" acme_stored_world
      = (Ok (mkCache (cache_infos [acme_stored]) [text_vec "Acme Corp"]), w') ∧
    w_cache w' = w_cache acme_stored_world ∧ w_store w' = w_store acme_stored_world.
Proof.
  apply (cache_outage_is_absorbed cacheless_env "organization" "t-1" "c-1"
           acme_stored_world acme_stored [] [text_vec "Acme Corp"]).
  - reflexivity.
  - vm_compute; reflexivity.
  - intros n. vm_compute; reflexivity.
Defined.

(** ** Cache keys *)

Lemma append_cons (c : ascii) (s t : string) : String c s +:+ t = String c (s +:+ t).
Proof. reflexivity. Qed.

Lemma append_nil (t : string) : "" +:+ t = t.
Proof. reflexivity. Qed.

Lemma append_inj_l (p x y : string) : p +:+ x = p +:+ y → x = y.
Proof.
  induction p as [|c p IH]; [done|]. rewrite !append_cons. intros [= H]. auto.
Qed.

Lemma colon_split (a a' b b' : string) :
  has_colon a = false → has_colon a' = false →
  a +:+ ":" +:+ b = a' +:+ ":" +:+ b' → a = a' ∧ b = b'.
Proof.
  revert a'. induction a as [|x a IH]; intros [|x' a'] Ha Ha' H;
    rewrite ?append_cons, ?append_nil in H.
  - by injection H as ->.
  - injection H as <- _. simpl in Ha'. done.
  - injection H as -> _. simpl in Ha. done.
  - injection H as -> H. simpl in Ha, Ha'.
    apply orb_false_iff in Ha as [_ Ha]. apply orb_false_iff in Ha' as [_ Ha'].
    destruct (IH a' Ha Ha' H) as [-> ->]. done.
Qed.

Lemma cache_key_inj (ty tenant cell ty' tenant' cell' : string) :
  has_colon ty = false → has_colon ty' = false →
  has_colon tenant = false → has_colon tenant' = false →
  cache_key ty tenant cell = cache_key ty' tenant' cell' →
  ty = ty' ∧ tenant = tenant' ∧ cell = cell'.
Proof.
  intros Hty Hty' Ht Ht' H. unfold cache_key in H.
  apply append_inj_l in H.
  apply colon_split in H as [-> H]; [|done..].
  apply colon_split in H as [-> ->]; done.
Qed.

(** X11: the cache key identifies its scope whenever the type and the
    tenant id contain no colon: two such scopes with the same key have the
    same type, tenant and cell. *)
Theorem cache_key_injective (ty tenant cell ty' tenant' cell' : string) :
  has_colon ty = false → has_colon ty' = false →
  has_colon tenant = false → has_colon tenant' = false →
  cache_key ty tenant cell = cache_key ty' tenant' cell' →
  ty = ty' ∧ tenant = tenant' ∧ cell = cell'.
Proof. apply cache_key_inj. Qed.

Lemma cache_key_injective_witness :
  "organization" = "organization" ∧ "acme" = "acme" ∧ "eu:1" = "eu:1".
Proof.
  apply (cache_key_injective "organization" "acme" "eu:1"
           "organization" "acme" "eu:1"); reflexivity.
Defined.

(** ** Tenant isolation of the semantic strategy *)

Lemma cache_scoped_store (w w' : World) :
  w_cache w' = w_cache w →
  (∀ e, e ∈ w_store w →
     ∃ e', e' ∈ w_store w' ∧ pe_id e' = pe_id e ∧
           pe_tenant_id e' = pe_tenant_id e ∧ pe_cell_id e' = pe_cell_id e) →
  cache_scoped w → cache_scoped w'.
Proof.
  intros Hc Hs Hinv ty tenant cell data Hty Ht Hlook info Hinfo.
  rewrite Hc in Hlook.
  destruct (Hinv ty tenant cell data Hty Ht Hlook info Hinfo) as (e & He & Hid & Hte & Hce).
  destruct (Hs e He) as (e' & He' & Hid' & Hte' & Hce').
  exists e'. split_and!; congruence.
Qed.

Lemma cache_scoped_same (w w' : World) :
  w_cache w' = w_cache w → w_store w' = w_store w →
  cache_scoped w → cache_scoped w'.
Proof.
  intros Hc Hs. apply cache_scoped_store; [done|].
  intros e He. exists e. by rewrite Hs.
Qed.

Lemma cache_scoped_empty (w : World) : w_cache w = ∅ → cache_scoped w.
Proof. intros Hc ty tenant cell data _ _ H. by rewrite Hc, lookup_empty in H. Qed.

Lemma cache_infos_scoped ty tenant cell w info :
  info ∈ cache_infos (scoped_rows 1000 ty tenant cell w) →
  ∃ e, e ∈ w_store w ∧ pe_id e = ei_id info ∧
       pe_tenant_id e = tenant ∧ pe_cell_id e = cell.
Proof.
  intros (r & -> & Hr)%list_elem_of_fmap.
  apply take_elem, filter_elem in Hr as [Hr Hp].
  apply by_type_scope_true in Hp as (_ & Ht & Hc). by exists r.
Qed.

Lemma generate_scoped env ty tenant cell w :
  has_colon ty = false → has_colon tenant = false → cache_scoped w →
  cache_scoped (_generate_and_cache_embeddings env ty tenant cell w).2 ∧
  w_store (_generate_and_cache_embeddings env ty tenant cell w).2 = w_store w ∧
  ∀ data, (_generate_and_cache_embeddings env ty tenant cell w).1 = Ok data →
    ∀ info, info ∈ cd_entities data →
      ∃ e, e ∈ w_store w ∧ pe_id e = ei_id info ∧
           pe_tenant_id e = tenant ∧ pe_cell_id e = cell.
Proof.
  intros Hty Ht Hinv. rewrite generate_run. cbv zeta.
  destruct (scoped_rows 1000 ty tenant cell w) as [|r rs] eqn:Hrows.
  { split_and!; [by eapply cache_scoped_same | done |].
    intros data [= <-] info Hin. by apply elem_of_nil in Hin. }
  assert (Hinfos : ∀ info, info ∈ cache_infos (r :: rs) →
            ∃ e, e ∈ w_store w ∧ pe_id e = ei_id info ∧
                 pe_tenant_id e = tenant ∧ pe_cell_id e = cell).
  { intros info Hin. rewrite <- Hrows in Hin. by eapply cache_infos_scoped. }
  destruct (encode env _ _) as [vs|].
  2:{ split_and!; [by eapply cache_scoped_same | done | done]. }
  destruct (cache_down env _).
  { split_and!; [by eapply cache_scoped_same | done |].
    intros data [= <-]. exact Hinfos. }
  split_and!; [| done | intros data [= <-]; exact Hinfos].
  intros ty' tenant' cell' data' Hty' Ht' Hlook info Hin. simpl in Hlook |- *.
  destruct (decide (cache_key ty tenant cell = cache_key ty' tenant' cell')) as [Hk|Hk].
  - rewrite <- Hk, lookup_insert_eq in Hlook. injection Hlook as <-.
    apply cache_key_inj in Hk as (_ & <- & <-); [|done..].
    by apply Hinfos.
  - rewrite lookup_insert_ne in Hlook by done.
    exact (Hinv ty' tenant' cell' data' Hty' Ht' Hlook info Hin).
Qed.

Lemma get_cached_scoped env ty tenant cell w :
  has_colon ty = false → has_colon tenant = false → cache_scoped w →
  cache_scoped (_get_cached_embeddings env ty tenant cell w).2 ∧
  w_store (_get_cached_embeddings env ty tenant cell w).2 = w_store w ∧
  ∀ data, (_get_cached_embeddings env ty tenant cell w).1 = Ok data →
    ∀ info, info ∈ cd_entities data →
      ∃ e, e ∈ w_store w ∧ pe_id e = ei_id info ∧
           pe_tenant_id e = tenant ∧ pe_cell_id e = cell.
Proof.
  intros Hty Ht Hinv. rewrite get_cached_run. cbv zeta.
  assert (Hlog : cache_scoped (logged (CacheGet (cache_key ty tenant cell)) w))
    by (by eapply cache_scoped_same).
  pose proof (generate_scoped env ty tenant cell _ Hty Ht Hlog) as Hgen.
  destruct (cache_down env _); [exact Hgen|].
  destruct (w_cache w !! cache_key ty tenant cell) as [data|] eqn:Hc; [|exact Hgen].
  split_and!; [exact Hlog | done |].
  intros data' [= <-]. exact (Hinv _ _ _ _ Hty Ht Hc).
Qed.

Lemma for_each_Forall {A B} (P : B → Prop) (body : list B → A → M (list B))
    (l : list A) (acc : list B) (w : World) (r : list B) (w' : World) :
  (∀ acc x w r w', Forall P acc → body acc x w = (Ok r, w') → Forall P r) →
  Forall P acc → for_each body l acc w = (Ok r, w') → Forall P r.
Proof.
  intros Hb. revert acc w. induction l as [|x l IH]; intros acc w Hacc; simpl.
  - by intros [= <- _].
  - unfold bind. destruct (body acc x w) as [[acc'|e] w1] eqn:E; [|done].
    apply IH. by eapply Hb.
Qed.

Lemma semantic_scoped env candidate tenant cell w :
  has_colon (entity_type candidate) = false → has_colon tenant = false →
  cache_scoped w →
  cache_scoped (_semantic_match env candidate tenant cell w).2 ∧
  w_store (_semantic_match env candidate tenant cell w).2 = w_store w ∧
  ∀ matches, (_semantic_match env candidate tenant cell w).1 = Ok matches →
    ∀ m, m ∈ matches →
      (similarity_threshold <= confidence_score m)%Q ∧ match_method m = SEMANTIC ∧
      ∃ e, e ∈ w_store w ∧ pe_id e = matched_entity_id m ∧
           pe_tenant_id e = tenant ∧ pe_cell_id e = cell.
Proof.
  intros Hty Ht Hinv. unfold _semantic_match.
  destruct (embedding candidate) as [emb|].
  2:{ split_and!; [done | done |]. intros ms [= <-] m Hm. by apply elem_of_nil in Hm. }
  unfold bind.
  destruct (get_cached_scoped env (entity_type candidate) tenant cell w Hty Ht Hinv)
    as (Hinv1 & Hs1 & Hdata).
  destruct (_get_cached_embeddings env (entity_type candidate) tenant cell w)
    as [[cached|ex] w1]; simpl in *; [|split_and!; done].
  destruct (cosine_similarity env emb (cd_embeddings cached)) as [sims|]; simpl;
    [|split_and!; done].
  set (P := fun m : EntityMatch =>
    (similarity_threshold <= confidence_score m)%Q ∧ match_method m = SEMANTIC ∧
    ∃ e, e ∈ w_store w ∧ pe_id e = matched_entity_id m ∧
         pe_tenant_id e = tenant ∧ pe_cell_id e = cell).
  match goal with
  | |- context [for_each ?b ?l ?a w1] =>
      pose proof (preserves_for_each (fun w => w) b l a) as Hw;
      pose proof (for_each_Forall P b l a w1) as Hall;
      destruct (for_each b l a w1) as [res w2] eqn:Hloop
  end.
  assert (w2 = w1) as ->.
  { specialize (Hw ltac:(intros acc [i s]; frame) w1). by rewrite Hloop in Hw. }
  split_and!; [done | done |].
  intros ms Hres m Hm. simpl in Hres. subst res.
  assert (HF : Forall P ms).
  { apply (Hall ms w1); [|constructor|reflexivity].
    intros acc [i s] w0 r w' Hacc Hbody.
    destruct (Qle_bool similarity_threshold s) eqn:Hle.
    - destruct (cd_entities cached !! i) as [info|] eqn:Hi; [|done].
      injection Hbody as <- _. apply Forall_app. split; [done|].
      constructor; [|constructor]. unfold P. simpl. apply Qle_bool_iff in Hle.
      split_and!; try done. apply Hdata with cached; [done|].
      by eapply list_elem_of_lookup_2.
    - by injection Hbody as <- _. }
  rewrite Forall_forall in HF. exact (HF m Hm).
Qed.

(** X12: in a world whose cache is scoped, the semantic strategy run for a
    colon-free type and tenant returns only matches of confidence at least
    0.85 on entities that the store holds for the request's tenant and cell. *)
Theorem semantic_matches_stay_in_scope (env : Env) (candidate : EntityCandidate)
    (tenant cell : string) (w : World) (matches : list EntityMatch) (w' : World) :
  has_colon (entity_type candidate) = false → has_colon tenant = false →
  cache_scoped w →
  _semantic_match env candidate tenant cell w = (Ok matches, w') →
  ∀ m, m ∈ matches →
    (similarity_threshold <= confidence_score m)%Q ∧ match_method m = SEMANTIC ∧
    ∃ e, e ∈ w_store w ∧ pe_id e = matched_entity_id m ∧
         pe_tenant_id e = tenant ∧ pe_cell_id e = cell.
Proof.
  intros Hty Ht Hinv Hrun.
  destruct (semantic_scoped env candidate tenant cell w Hty Ht Hinv) as (_ & _ & H).
  apply H. by rewrite Hrun.
Qed.

Lemma semantic_matches_stay_in_scope_witness :
  (similarity_threshold <= confidence_score acme_semantic_match)%Q ∧
  match_method acme_semantic_match = SEMANTIC ∧
  ∃ e, e ∈ w_store acme_stored_world ∧
       pe_id e = matched_entity_id acme_semantic_match ∧
       pe_tenant_id e = "t-1" ∧ pe_cell_id e = "c-1".
Proof.
  apply (semantic_matches_stay_in_scope stub_env hybrid_candidate "t-1" "c-1"
           acme_stored_world [acme_semantic_match]
           (_semantic_match stub_env hybrid_candidate "t-1" "c-1" acme_stored_world).2).
  - reflexivity.
  - reflexivity.
  - apply cache_scoped_empty. reflexivity.
  - vm_compute; reflexivity.
  - apply list_elem_of_here.
Defined.

Lemma build_candidate_type env data method w candidate w0 :
  build_candidate env data method w = (Ok candidate, w0) →
  entity_type candidate ∈ entity_types env.
Proof.
  unfold build_candidate, bind, uuid4, EntityType.
  destruct (ed_name data) as [nm|]; [|done].
  destruct (ed_entity_type data) as [raw|]; [|done]. simpl.
  destruct (existsb (String.eqb raw) (entity_types env)) eqn:Hv; [|done]. simpl.
  assert (Hin : raw ∈ entity_types env).
  { apply existsb_exists in Hv as (x & Hx & ->%String.eqb_eq).
    by apply list_elem_of_In. }
  destruct (needs_embedding method).
  - destruct (_generate_embedding env _ _) as [[emb|ex] w1]; [|done].
    by intros [= <- _].
  - by intros [= <- _].
Qed.

Lemma find_matches_scoped env candidate tenant cell method w :
  has_colon (entity_type candidate) = false → has_colon tenant = false →
  cache_scoped w →
  cache_scoped (_find_matches env candidate tenant cell method w).2 ∧
  w_store (_find_matches env candidate tenant cell method w).2 = w_store w.
Proof.
  intros Hty Ht Hinv.
  split; [|apply keeps_store_find_matches].
  unfold _find_matches, bind. destruct method.
  - rewrite exact_match_run. by eapply cache_scoped_same.
  - rewrite fuzzy_match_run. by eapply cache_scoped_same.
  - destruct (semantic_scoped env candidate tenant cell w Hty Ht Hinv) as (H & _ & _).
    by destruct (_semantic_match env candidate tenant cell w) as [[ms|ex] w1].
  - rewrite exact_match_run, fuzzy_match_run.
    assert (Hinv2 : cache_scoped (logged StoreQuery (logged StoreQuery w)))
      by (by eapply cache_scoped_same).
    destruct (semantic_scoped env candidate tenant cell _ Hty Ht Hinv2) as (H & _ & _).
    by destruct (_semantic_match env candidate tenant cell _) as [[ms|ex] w1].
  - pose proof (clustering_match_keeps_cache env candidate tenant cell w) as Hc.
    pose proof (keeps_store_clustering env candidate tenant cell w) as Hs.
    destruct (_ml_clustering_match env candidate tenant cell w) as [[ms|ex] w1];
      simpl in *; by eapply cache_scoped_same.
Qed.

Lemma decide_outcome_keeps_cache env data candidate tenant cell create matches :
  preserves w_cache (decide_outcome env data candidate tenant cell create matches).
Proof.
  unfold decide_outcome, no_good_match, _merge_entity_data, _create_entity,
    run_match, run_set_attributes, run_create.
  frame.
Qed.

Lemma with_attributes_identity id tenant cell attrs e :
  pe_id (with_attributes id tenant cell attrs e) = pe_id e ∧
  pe_tenant_id (with_attributes id tenant cell attrs e) = pe_tenant_id e ∧
  pe_cell_id (with_attributes id tenant cell attrs e) = pe_cell_id e.
Proof. unfold with_attributes. by destruct (by_id_scope id tenant cell e). Qed.

Lemma decide_outcome_identities env data candidate tenant cell create matches w e :
  e ∈ w_store w →
  ∃ e', e' ∈ w_store (decide_outcome env data candidate tenant cell create matches w).2 ∧
        pe_id e' = pe_id e ∧ pe_tenant_id e' = pe_tenant_id e ∧
        pe_cell_id e' = pe_cell_id e.
Proof.
  intros He.
  pose proof (decide_outcome_store env data candidate tenant cell create matches w) as H.
  destruct (decide_outcome env data candidate tenant cell create matches w)
    as [[[m ? ? ?|n ? ?|?|?]|ex] w']; simpl.
  - rewrite H. eexists. split; [by apply list_elem_of_fmap_2|].
    apply with_attributes_identity.
  - destruct H as (_ & -> & _). exists e. split; [|done].
    apply elem_of_app. by left.
  - destruct H as [_ ->]. by exists e.
  - done.
  - rewrite H. by exists e.
Qed.

Lemma resolve_entity_scoped env data tenant cell method create w :
  (∀ ty, ty ∈ entity_types env → has_colon ty = false) →
  has_colon tenant = false →
  cache_scoped w →
  cache_scoped (resolve_entity env data tenant cell method create w).2.
Proof.
  intros Htypes Ht Hinv. unfold resolve_entity, resolve_entity_try, bind.
  pose proof (keeps_store_build_candidate env data method w) as Hs0.
  pose proof (build_candidate_keeps_cache env data method w) as Hc0.
  pose proof (build_candidate_type env data method w) as Hty.
  destruct (build_candidate env data method w) as [[candidate|ex] w0]; simpl in *.
  2:{ by eapply cache_scoped_same. }
  assert (Hinv0 : cache_scoped w0) by (by eapply cache_scoped_same).
  specialize (Hty candidate w0 eq_refl). apply Htypes in Hty.
  destruct (find_matches_scoped env candidate tenant cell method w0 Hty Ht Hinv0)
    as [Hinv1 _].
  destruct (_find_matches env candidate tenant cell method w0) as [[matches|ex] w1];
    simpl in *; [|done].
  pose proof (decide_outcome_keeps_cache env data candidate tenant cell create matches w1)
    as Hc2.
  pose proof (decide_outcome_identities env data candidate tenant cell create matches w1)
    as Hs2.
  destruct (decide_outcome env data candidate tenant cell create matches w1)
    as [[o|ex] w2]; simpl in *; by eapply cache_scoped_store.
Qed.

Lemma serve_all_scoped env requests w :
  (∀ ty, ty ∈ entity_types env → has_colon ty = false) →
  Forall (fun rq => has_colon (rq_tenant rq) = false) requests →
  cache_scoped w → cache_scoped (serve_all env requests w).
Proof.
  intros Htypes Hreqs. revert w.
  induction Hreqs as [|rq requests Hrq _ IH]; intros w Hinv; [done|].
  apply IH. by apply resolve_entity_scoped.
Qed.

(** X13: tenant isolation of the semantic strategy over any history.
    Starting from an empty cache, after any series of resolutions whose
    tenant ids contain no colon (the entity types containing none either),
    the semantic strategy run for such a tenant returns only entities that
    the store holds for the request's tenant and cell. *)
Theorem semantic_isolation_after_any_history (env : Env) (requests : list Request)
    (w : World) (candidate : EntityCandidate) (tenant cell : string)
    (matches : list EntityMatch) (w' : World) :
  (∀ ty, ty ∈ entity_types env → has_colon ty = false) →
  Forall (fun rq => has_colon (rq_tenant rq) = false) requests →
  w_cache w = ∅ →
  entity_type candidate ∈ entity_types env →
  has_colon tenant = false →
  _semantic_match env candidate tenant cell (serve_all env requests w)
    = (Ok matches, w') →
  ∀ m, m ∈ matches →
    ∃ e, e ∈ w_store (serve_all env requests w) ∧ pe_id e = matched_entity_id m ∧
         pe_tenant_id e = tenant ∧ pe_cell_id e = cell.
Proof.
  intros Htypes Hreqs Hempty Hty Ht Hrun m Hm.
  assert (Hinv : cache_scoped (serve_all env requests w)).
  { apply serve_all_scoped; [done | done |]. by apply cache_scoped_empty. }
  destruct (semantic_scoped env candidate tenant cell _ (Htypes _ Hty) Ht Hinv)
    as (_ & _ & H).
  rewrite Hrun in H. by destruct (H matches eq_refl m Hm) as (_ & _ & ?).
Qed.

Lemma stub_types_colon_free (ty : string) :
  ty ∈ entity_types stub_env → has_colon ty = false.
Proof.
  simpl. intros H.
  repeat (apply elem_of_cons in H as [-> | H]; [reflexivity|]).
  by apply elem_of_nil in H.
Qed.

Lemma semantic_isolation_after_any_history_witness :
  ∃ e, e ∈ w_store (serve_all stub_env sample_history empty_world) ∧
       pe_id e = matched_entity_id history_semantic_match ∧
       pe_tenant_id e = "t-2" ∧ pe_cell_id e = "c-1".
Proof.
  apply (semantic_isolation_after_any_history stub_env sample_history empty_world
           hybrid_candidate "t-2" "c-1" [history_semantic_match]
           (_semantic_match stub_env hybrid_candidate "t-2" "c-1"
              (serve_all stub_env sample_history empty_world)).2).
  - exact stub_types_colon_free.
  - repeat constructor.
  - reflexivity.
  - simpl. apply elem_of_cons. right. apply elem_of_cons. by left.
  - reflexivity.
  - vm_compute; reflexivity.
  - apply list_elem_of_here.
Defined.

(** ** The range of confidence scores *)

Lemma for_each_Forall_in {A B} (P : B → Prop) (body : list B → A → M (list B))
    (l : list A) (acc : list B) (w : World) (r : list B) (w' : World) :
  (∀ acc x w r w', x ∈ l → Forall P acc → body acc x w = (Ok r, w') → Forall P r) →
  Forall P acc → for_each body l acc w = (Ok r, w') → Forall P r.
Proof.
  revert acc w. induction l as [|x l IH]; intros acc w Hb Hacc; simpl.
  - by intros [= <- _].
  - unfold bind. destruct (body acc x w) as [[acc'|e] w1] eqn:E; [|done].
    apply IH.
    + intros acc0 y w0 r0 w0' Hy. apply Hb. apply elem_of_cons. by right.
    + eapply Hb; [|done|done]. apply elem_of_cons. by left.
Qed.

Lemma fuzzy_confidence_range (similarity : Z) :
  80 ≤ similarity ≤ 100 →
  (0 <= inject_Z similarity / 100)%Q ∧ (inject_Z similarity / 100 <= 1)%Q.
Proof.
  intros H. unfold Qdiv, Qmult, Qinv, Qle, inject_Z. simpl. lia.
Qed.

Lemma cluster_confidence_range (size : nat) :
  (0 <= cluster_confidence (Z.of_nat size))%Q ∧
  (cluster_confidence (Z.of_nat size) <= 1)%Q.
Proof.
  unfold cluster_confidence. split.
  - apply Q.min_glb; [done|].
    unfold Qplus, Qminus, Qmult, Qopp, Qle, inject_Z. simpl. lia.
  - eapply Qle_trans; [apply Q.le_min_l | done].
Qed.

Lemma exact_confidences candidate tenant cell w matches w' :
  _exact_match candidate tenant cell w = (Ok matches, w') →
  Forall (fun m => (0 <= confidence_score m)%Q ∧ (confidence_score m <= 1)%Q) matches.
Proof.
  rewrite exact_match_run. intros [= <- _]. apply Forall_fmap, Forall_true.
  intros r. simpl. done.
Qed.

Lemma fuzzy_confidences env candidate tenant cell w matches w' :
  (∀ a b, fuzz_ratio env a b ≤ 100) →
  _fuzzy_match env candidate tenant cell w = (Ok matches, w') →
  Forall (fun m => (0 <= confidence_score m)%Q ∧ (confidence_score m <= 1)%Q) matches.
Proof.
  intros Hratio. rewrite fuzzy_match_run. intros [= <- _].
  apply Forall_forall. intros m (r & _ & Hr)%list_elem_of_omap.
  apply fuzzy_record_Some in Hr as [Hge ->]. simpl.
  apply fuzzy_confidence_range. unfold fuzzy_threshold in Hge.
  split; [done | apply Hratio].
Qed.

Lemma enumerate_values {A} (l : list A) (i : nat) (x : A) :
  (i, x) ∈ Py.enumerate l → x ∈ l.
Proof. intros H%enumerate_elem. by eapply list_elem_of_lookup_2. Qed.

Lemma semantic_confidences env candidate tenant cell w matches w' :
  (∀ v vs sims, cosine_similarity env v vs = Some sims →
                Forall (fun s => (s <= 1)%Q) sims) →
  _semantic_match env candidate tenant cell w = (Ok matches, w') →
  Forall (fun m => (0 <= confidence_score m)%Q ∧ (confidence_score m <= 1)%Q) matches.
Proof.
  intros Hcos. unfold _semantic_match.
  destruct (embedding candidate) as [emb|]; [|by intros [= <- _]].
  unfold bind.
  destruct (_get_cached_embeddings env (entity_type candidate) tenant cell w)
    as [[cached|ex] w1]; [|done].
  destruct (cosine_similarity env emb (cd_embeddings cached)) as [sims|] eqn:Hs;
    simpl; [|done].
  specialize (Hcos _ _ _ Hs). rewrite Forall_forall in Hcos.
  apply for_each_Forall_in; [|constructor].
  intros acc [i s] w0 r w0' Hin Hacc Hbody.
  destruct (Qle_bool similarity_threshold s) eqn:Hle.
  - destruct (cd_entities cached !! i) as [info|]; [|done].
    injection Hbody as <- _. apply Forall_app. split; [done|].
    constructor; [|constructor]. simpl. apply Qle_bool_iff in Hle. split.
    + eapply Qle_trans; [|exact Hle]. done.
    + apply Hcos. by eapply enumerate_values.
  - by injection Hbody as <- _.
Qed.

Lemma clustering_confidences env candidate tenant cell w matches w' :
  _ml_clustering_match env candidate tenant cell w = (Ok matches, w') →
  Forall (fun m => (0 <= confidence_score m)%Q ∧ (confidence_score m <= 1)%Q) matches.
Proof.
  unfold _ml_clustering_match, _get_entities_for_clustering, bind.
  rewrite run_match_run.
  destruct (_ <? 3)%nat; [by intros [= <- _]|].
  destruct (last _) as [c|]; simpl; [|done].
  destruct (negb (c =? -1)); [|by intros [= <- _]].
  apply for_each_Forall_in; [|constructor].
  intros acc idx w0 r w0' _ Hacc Hbody.
  destruct (_ !! idx) as [id|]; simpl in Hbody; [|done].
  destruct (_ !! idx) as [e|]; simpl in Hbody; [|done].
  injection Hbody as <- _. apply Forall_app. split; [done|].
  constructor; [|constructor]. simpl. apply cluster_confidence_range.
Qed.

Lemma deduplicate_subset ms m : m ∈ _deduplicate_matches ms → m ∈ ms.
Proof.
  intros H%deduplicate_elem.
  destruct (retained_Some _ _ _ H) as (_ & pre & post & -> & _).
  apply elem_of_app. right. apply elem_of_cons. by left.
Qed.

(** X14: every match that [_find_matches] returns, whatever the method, has
    a confidence between 0 and 1, provided the string ratio is at most 100
    and the cosine similarities are at most 1. *)
Theorem find_matches_confidence_range (env : Env) (candidate : EntityCandidate)
    (tenant cell : string) (method : MatchMethod) (w : World)
    (matches : list EntityMatch) (w' : World) :
  (∀ a b, fuzz_ratio env a b ≤ 100) →
  (∀ v vs sims, cosine_similarity env v vs = Some sims →
                Forall (fun s => (s <= 1)%Q) sims) →
  _find_matches env candidate tenant cell method w = (Ok matches, w') →
  ∀ m, m ∈ matches →
    (0 <= confidence_score m)%Q ∧ (confidence_score m <= 1)%Q.
Proof.
  intros Hratio Hcos Hrun.
  apply Forall_forall. revert Hrun. unfold _find_matches. unfold bind at 1.
  match goal with
  | |- (match ?x with _ => _ end) = _ → _ =>
      destruct x as [[ms|ex] w1] eqn:Hinner
  end; [|done].
  intros [= <- _]. rewrite sort_desc_perm.
  destruct method.
  - by eapply exact_confidences.
  - by eapply fuzzy_confidences.
  - by eapply semantic_confidences.
  - unfold bind in Hinner.
    destruct (_exact_match candidate tenant cell w) as [[ex|?] wa] eqn:Hex; [|done].
    destruct (_fuzzy_match env candidate tenant cell wa) as [[fz|?] wb] eqn:Hfz; [|done].
    destruct (_semantic_match env candidate tenant cell wb) as [[sm|?] wc] eqn:Hsm;
      [|done].
    injection Hinner as <- _.
    apply Forall_forall. intros m Hm%deduplicate_subset. revert m Hm.
    apply Forall_forall. rewrite !Forall_app. split_and!.
    + by eapply exact_confidences.
    + by eapply fuzzy_confidences.
    + by eapply semantic_confidences.
  - by eapply clustering_confidences.
Qed.

Lemma stub_cosine_range (v : Vec) (vs : list Vec) (sims : list Q) :
  cosine_similarity stub_env v vs = Some sims → Forall (fun s => (s <= 1)%Q) sims.
Proof.
  simpl. unfold stub_cosine. destruct vs as [|u vs]; [done|].
  intros [= <-].
  change (Forall (fun s => (s <= 1)%Q)
            ((fun x => if vec_eqb v x then 1%Q else 0%Q) <$> u :: vs)).
  apply Forall_fmap, Forall_true. intros x. simpl.
  by destruct (vec_eqb v x).
Qed.

Lemma find_matches_confidence_range_witness :
  (0 <= confidence_score acme_exact_match)%Q ∧
  (confidence_score acme_exact_match <= 1)%Q.
Proof.
  apply (find_matches_confidence_range stub_env hybrid_candidate "t-1" "c-1" HYBRID
           acme_stored_world [acme_exact_match]
           (_find_matches stub_env hybrid_candidate "t-1" "c-1" HYBRID
              acme_stored_world).2).
  - intros a b. simpl. destruct (String.eqb a b); lia.
  - exact stub_cosine_range.
  - vm_compute; reflexivity.
  - apply list_elem_of_here.
Defined.

(** ** Downstream calls *)

Section Budget.

Context (selected : CallKind → bool).

Lemma count_calls_app (l1 l2 : list Call) :
  count_calls selected (l1 ++ l2) = (count_calls selected l1 + count_calls selected l2)%nat.
Proof. unfold count_calls. by rewrite List.filter_app, length_app. Qed.

Lemma emits_mono {A} (n n' : nat) (c : M A) :
  (n <= n')%nat → emits_at_most selected n c → emits_at_most selected n' c.
Proof. intros Hle H w. destruct (H w) as (l & ? & ?). exists l. split; [done | lia]. Qed.

Lemma emits_quiet {A} (c : M A) :
  (∀ w, w_calls (c w).2 = w_calls w) → emits_at_most selected 0 c.
Proof. intros H w. exists []. by rewrite app_nil_r, H. Qed.

Lemma emits_ret {A} (a : A) : emits_at_most selected 0 (ret a).
Proof. by apply emits_quiet. Qed.

Lemma emits_raise {A} (e : Exn) : emits_at_most selected 0 (@raise A e).
Proof. by apply emits_quiet. Qed.

Lemma emits_of_option {A} (e : Exn) (o : option A) :
  emits_at_most selected 0 (of_option e o).
Proof. apply emits_quiet. by destruct o. Qed.

Lemma emits_log (c : Call) :
  emits_at_most selected (cost selected (call_kind c)) (log_call c).
Proof.
  intros w. exists [c]. split; [done|]. unfold count_calls, cost. simpl.
  by destruct (selected (call_kind c)).
Qed.

Lemma emits_bind {A B} (n1 n2 : nat) (c : M A) (k : A → M B) :
  emits_at_most selected n1 c → (∀ a, emits_at_most selected n2 (k a)) →
  emits_at_most selected (n1 + n2) (bind c k).
Proof.
  intros Hc Hk w. unfold bind. destruct (Hc w) as (l1 & H1 & Hn1).
  destruct (c w) as [[a|e] w1]; simpl in *.
  - destruct (Hk a w1) as (l2 & H2 & Hn2). exists (l1 ++ l2).
    rewrite H2, H1, count_calls_app, app_assoc. split; [done | lia].
  - exists l1. split; [done | lia].
Qed.

Lemma emits_try {A} (n1 n2 : nat) (c : M A) (h : Exn → M A) :
  emits_at_most selected n1 c → (∀ e, emits_at_most selected n2 (h e)) →
  emits_at_most selected (n1 + n2) (try_except c h).
Proof.
  intros Hc Hh w. unfold try_except. destruct (Hc w) as (l1 & H1 & Hn1).
  destruct (c w) as [[a|e] w1]; simpl in *.
  - exists l1. split; [done | lia].
  - destruct (Hh e w1) as (l2 & H2 & Hn2). exists (l1 ++ l2).
    rewrite H2, H1, count_calls_app, app_assoc. split; [done | lia].
Qed.

Lemma emits_for_each {A B} (body : list B → A → M (list B)) l acc :
  (∀ acc x, emits_at_most selected 0 (body acc x)) →
  emits_at_most selected 0 (for_each body l acc).
Proof.
  intros Hb. revert acc. induction l as [|x l IH]; intros acc; simpl.
  - apply emits_ret.
  - apply (emits_bind 0 0); auto.
Qed.

Abbreviation store_cost := (cost selected ToStore).
Abbreviation provider_cost := (cost selected ToProvider).
Abbreviation cache_cost := (cost selected ToCache).

Lemma emits_run_match props limit :
  emits_at_most selected store_cost (run_match props limit).
Proof.
  unfold run_match. apply (emits_mono (store_cost + 0)); [lia|].
  apply emits_bind; [apply (emits_log StoreQuery) | intros _; by apply emits_quiet].
Qed.

Lemma emits_run_create e : emits_at_most selected store_cost (run_create e).
Proof.
  unfold run_create. apply (emits_mono (store_cost + 0)); [lia|].
  apply emits_bind; [apply (emits_log StoreCreate) | intros _; by apply emits_quiet].
Qed.

Lemma emits_run_set props attrs :
  emits_at_most selected store_cost (run_set_attributes props attrs).
Proof.
  unfold run_set_attributes. apply (emits_mono (store_cost + 0)); [lia|].
  apply emits_bind; [apply (emits_log StoreUpdate) | intros _; by apply emits_quiet].
Qed.

Lemma emits_model_encode env texts :
  emits_at_most selected provider_cost (model_encode env texts).
Proof.
  unfold model_encode. apply (emits_mono (0 + (provider_cost + 0))); [lia|].
  apply emits_bind; [by apply emits_quiet | intros n].
  apply emits_bind; [apply (emits_log (EncodeCall texts)) | intros _].
  apply emits_of_option.
Qed.

Lemma emits_redis_get env key :
  emits_at_most selected cache_cost (redis_get env key).
Proof.
  unfold redis_get. apply (emits_mono (0 + (cache_cost + 0))); [lia|].
  apply emits_bind; [by apply emits_quiet | intros n].
  apply emits_bind; [apply (emits_log (CacheGet key)) | intros _].
  destruct (cache_down env n); [apply emits_raise | by apply emits_quiet].
Qed.

Lemma emits_redis_setex env key ttl data :
  emits_at_most selected cache_cost (redis_setex env key ttl data).
Proof.
  unfold redis_setex. apply (emits_mono (0 + (cache_cost + 0))); [lia|].
  apply emits_bind; [by apply emits_quiet | intros n].
  apply emits_bind; [apply (emits_log (CacheSet key)) | intros _].
  destruct (cache_down env n); [apply emits_raise | by apply emits_quiet].
Qed.

Lemma emits_generate env ty tenant cell :
  emits_at_most selected (store_cost + provider_cost + cache_cost)
    (_generate_and_cache_embeddings env ty tenant cell).
Proof.
  unfold _generate_and_cache_embeddings.
  apply (emits_mono (store_cost + (provider_cost + (cache_cost + 0 + 0)))); [lia|].
  apply emits_bind; [apply emits_run_match | intros result].
  destruct result as [|r rs].
  { eapply emits_mono; [|apply emits_ret]. lia. }
  apply emits_bind; [apply emits_model_encode | intros vs].
  apply emits_bind; [|intros _; apply emits_ret].
  apply emits_try; [apply emits_redis_setex | intros _; apply emits_ret].
Qed.

Lemma emits_get_cached env ty tenant cell :
  emits_at_most selected (store_cost + provider_cost + 2 * cache_cost)
    (_get_cached_embeddings env ty tenant cell).
Proof.
  unfold _get_cached_embeddings.
  apply (emits_mono (cache_cost + 0 + (store_cost + provider_cost + cache_cost)));
    [lia|].
  apply emits_bind.
  - apply emits_try; [apply emits_redis_get | intros _; apply emits_ret].
  - intros [data|]; [|apply emits_generate].
    eapply emits_mono; [|apply emits_ret]. lia.
Qed.

Lemma emits_exact candidate tenant cell :
  emits_at_most selected store_cost (_exact_match candidate tenant cell).
Proof.
  unfold _exact_match. apply (emits_mono (store_cost + 0)); [lia|].
  apply emits_bind; [apply emits_run_match | intros; apply emits_ret].
Qed.

Lemma emits_fuzzy env candidate tenant cell :
  emits_at_most selected store_cost (_fuzzy_match env candidate tenant cell).
Proof.
  unfold _fuzzy_match. apply (emits_mono (store_cost + 0)); [lia|].
  apply emits_bind; [apply emits_run_match | intros; apply emits_ret].
Qed.

Lemma emits_semantic env candidate tenant cell :
  emits_at_most selected (store_cost + provider_cost + 2 * cache_cost)
    (_semantic_match env candidate tenant cell).
Proof.
  unfold _semantic_match. destruct (embedding candidate) as [emb|].
  2:{ eapply emits_mono; [|apply emits_ret]. lia. }
  apply (emits_mono (store_cost + provider_cost + 2 * cache_cost + (0 + 0))); [lia|].
  apply emits_bind; [apply emits_get_cached | intros cached].
  apply emits_bind; [apply emits_of_option | intros sims].
  apply emits_for_each. intros acc [i s].
  destruct (Qle_bool similarity_threshold s); [|apply emits_ret].
  apply (emits_bind 0 0); [apply emits_of_option | intros; apply emits_ret].
Qed.

Lemma emits_clustering env candidate tenant cell :
  emits_at_most selected store_cost (_ml_clustering_match env candidate tenant cell).
Proof.
  unfold _ml_clustering_match, _get_entities_for_clustering.
  apply (emits_mono (store_cost + (0 + 0))); [lia|].
  apply emits_bind; [apply emits_run_match | intros entities].
  destruct (_ <? 3)%nat; [eapply emits_mono; [|apply emits_ret]; lia|].
  apply emits_bind; [apply emits_of_option | intros c].
  destruct (negb (c =? -1)); [|apply emits_ret].
  apply emits_for_each. intros acc idx.
  apply (emits_bind 0 0); [apply emits_of_option | intros id].
  apply (emits_bind 0 0); [apply emits_of_option | intros; apply emits_ret].
Qed.

Lemma emits_find_matches env candidate tenant cell method :
  emits_at_most selected
    (if needs_embedding method
     then 3 * store_cost + provider_cost + 2 * cache_cost
     else store_cost)
    (_find_matches env candidate tenant cell method).
Proof.
  unfold _find_matches.
  destruct method; simpl.
  - apply (emits_mono (store_cost + 0)); [lia|].
    apply emits_bind; [apply emits_exact | intros; apply emits_ret].
  - apply (emits_mono (store_cost + 0)); [lia|].
    apply emits_bind; [apply emits_fuzzy | intros; apply emits_ret].
  - apply (emits_mono (store_cost + provider_cost + 2 * cache_cost + 0)); [lia|].
    apply emits_bind; [apply emits_semantic | intros; apply emits_ret].
  - apply (emits_mono
             (store_cost + (store_cost
              + (store_cost + provider_cost + 2 * cache_cost + 0)) + 0)); [lia|].
    apply emits_bind; [|intros; apply emits_ret].
    apply emits_bind; [apply emits_exact | intros ex].
    apply emits_bind; [apply emits_fuzzy | intros fz].
    apply emits_bind; [apply emits_semantic | intros; apply emits_ret].
  - apply (emits_mono (store_cost + 0)); [lia|].
    apply emits_bind; [apply emits_clustering | intros; apply emits_ret].
Qed.

Lemma emits_build_candidate env data method :
  emits_at_most selected (if needs_embedding method then provider_cost else 0)
    (build_candidate env data method).
Proof.
  unfold build_candidate.
  apply (emits_mono (0 + (0 + (0 + (0 + (if needs_embedding method
                                         then provider_cost else 0))))));
    [lia|].
  apply emits_bind; [by apply emits_quiet | intros id].
  apply emits_bind; [apply emits_of_option | intros nm].
  apply emits_bind; [apply emits_of_option | intros raw].
  apply emits_bind.
  { unfold EntityType. destruct (existsb _ _); [apply emits_ret | apply emits_raise]. }
  intros ty. destruct (needs_embedding method); [|apply emits_ret].
  apply (emits_mono (provider_cost + 0 + 0)); [lia|].
  apply emits_bind; [|intros; apply emits_ret].
  unfold _generate_embedding.
  apply emits_bind; [apply emits_model_encode | intros; apply emits_of_option].
Qed.

Lemma emits_decide env data candidate tenant cell create matches :
  emits_at_most selected (2 * store_cost)
    (decide_outcome env data candidate tenant cell create matches).
Proof.
  assert (Hno : emits_at_most selected (2 * store_cost)
                  (no_good_match candidate tenant cell create matches)).
  { unfold no_good_match. destruct create; [|eapply emits_mono; [|apply emits_ret]; lia].
    apply (emits_mono (0 + (store_cost + 0) + 0)); [lia|].
    apply emits_bind; [|intros; apply emits_ret].
    unfold _create_entity.
    apply emits_bind; [by apply emits_quiet | intros id].
    apply emits_bind; [apply emits_run_create | intros; apply emits_ret]. }
  unfold decide_outcome. destruct matches as [|first rest]; [done|].
  destruct (Qle_bool _ _); [|done].
  apply (emits_mono (store_cost + (0 + (store_cost + 0)) + 0)); [lia|].
  apply emits_bind; [|intros; apply emits_ret].
  unfold _merge_entity_data.
  apply emits_bind; [apply emits_run_match | intros result].
  destruct result as [|existing others];
    [eapply emits_mono; [|apply emits_raise]; lia|].
  apply emits_bind; [by apply emits_quiet | intros merged].
  apply emits_bind; [apply emits_run_set | intros; apply emits_ret].
Qed.

Lemma emits_resolve_entity env data tenant cell method create w :
  ∃ l,
    w_calls (resolve_entity env data tenant cell method create w).2 = w_calls w ++ l ∧
    (count_calls selected l
     <= if needs_embedding method
        then 5 * store_cost + 2 * provider_cost + 2 * cache_cost
        else 3 * store_cost)%nat.
Proof.
  assert (H : emits_at_most selected
                (if needs_embedding method
                 then 5 * store_cost + 2 * provider_cost + 2 * cache_cost
                 else 3 * store_cost)
                (resolve_entity_try env data tenant cell method create)).
  { unfold resolve_entity_try.
    eapply emits_mono;
      [|apply emits_bind;
         [apply emits_build_candidate
         |intros candidate; apply emits_bind;
            [apply emits_find_matches | intros matches; apply emits_decide]]].
    destruct (needs_embedding method); lia. }
  destruct (H w) as (l & Hl & Hn). exists l. split; [|done].
  unfold resolve_entity.
  by destruct (resolve_entity_try env data tenant cell method create w) as [[o|e] w'].
Qed.

End Budget.

Lemma count_any_kind (l : list Call) : count_calls any_kind l = length l.
Proof.
  unfold count_calls. induction l as [|c l IH]; [done|]. simpl. by rewrite IH.
Qed.

Lemma count_zero_Forall (selected : CallKind → bool) (l : list Call) :
  count_calls selected l = 0%nat → Forall (fun c => selected (call_kind c) = false) l.
Proof.
  unfold count_calls. induction l as [|c l IH]; [constructor|]. simpl.
  destruct (selected (call_kind c)) eqn:E; [done|]. intros H. constructor; auto.
Qed.

(** X15: with the exact, fuzzy or clustering method a resolution talks to
    the entity store only: it makes at most three downstream calls, none to
    the embedding provider and none to the cache. *)
Theorem plain_methods_use_the_store_only (env : Env) (data : EntityData)
    (tenant cell : string) (method : MatchMethod) (create_if_not_found : bool)
    (w : World) :
  needs_embedding method = false →
  ∃ l,
    w_calls (resolve_entity env data tenant cell method create_if_not_found w).2
      = w_calls w ++ l ∧
    (length l <= 3)%nat ∧
    Forall (fun c => call_kind c = ToStore) l.
Proof.
  intros Hm.
  destruct (emits_resolve_entity any_kind env data tenant cell method
              create_if_not_found w) as (l & Hl & Hn).
  destruct (emits_resolve_entity not_store env data tenant cell method
              create_if_not_found w) as (l' & Hl' & Hn').
  rewrite Hm in Hn, Hn'. rewrite Hl in Hl'. apply app_inv_head in Hl' as <-.
  exists l. split; [done|]. split.
  - rewrite count_any_kind in Hn. exact Hn.
  - simpl in Hn'. assert (H0 : count_calls not_store l = 0%nat) by lia.
    apply count_zero_Forall in H0. eapply Forall_impl; [exact H0|].
    intros c Hc. simpl in Hc. by destruct (call_kind c).
Qed.

Lemma plain_methods_use_the_store_only_witness :
  ∃ l,
    w_calls (resolve_entity stub_env acme_data "t-1" "c-1" FUZZY true
               acme_stored_world).2
      = w_calls acme_stored_world ++ l ∧
    (length l <= 3)%nat ∧
    Forall (fun c => call_kind c = ToStore) l.
Proof.
  apply (plain_methods_use_the_store_only stub_env acme_data "t-1" "c-1" FUZZY true
           acme_stored_world).
  reflexivity.
Defined.

(** X16: whatever the method, one resolution only appends to the trace of
    downstream calls, at most nine calls in all, of which at most two go to
    the embedding provider. *)
Theorem resolve_entity_call_budget (env : Env) (data : EntityData)
    (tenant cell : string) (method : MatchMethod) (create_if_not_found : bool)
    (w : World) :
  ∃ l,
    w_calls (resolve_entity env data tenant cell method create_if_not_found w).2
      = w_calls w ++ l ∧
    (length l <= 9)%nat ∧
    (count_calls is_provider l <= 2)%nat.
Proof.
  destruct (emits_resolve_entity any_kind env data tenant cell method
              create_if_not_found w) as (l & Hl & Hn).
  destruct (emits_resolve_entity is_provider env data tenant cell method
              create_if_not_found w) as (l' & Hl' & Hn').
  rewrite Hl in Hl'. apply app_inv_head in Hl' as <-.
  exists l. split; [done|]. rewrite count_any_kind in Hn.
  split; destruct (needs_embedding method); simpl in *; lia.
Qed.

(** ** The feature matrix of the clustering strategy *)

Lemma count_words_range (in_word : bool) (s : string) :
  0 ≤ Py.count_words in_word s ≤ Z.of_nat (String.length s).
Proof.
  revert in_word. induction s as [|c s IH]; intros in_word; simpl; [lia|].
  destruct (Py.is_space c).
  - specialize (IH false). lia.
  - specialize (IH true). destruct in_word; lia.
Qed.

Lemma has_attr_range attrs key : 0 ≤ has_attr attrs key ≤ 1.
Proof.
  unfold has_attr. destruct (attrs !! key) as [v|]; [destruct (Py.truthy v)|]; lia.
Qed.

(** X17: the feature matrix handed to the clustering model is rectangular:
    one row per stored entity followed by the row of the candidate, every
    row made of six non-negative integers, the word count never above the
    length of the name and the three presence flags 0 or 1. *)
Theorem clustering_features_shape (candidate : EntityCandidate)
    (entities : list PersistedEntity) :
  length (clustering_features candidate entities) = S (length entities) ∧
  last (clustering_features candidate entities)
    = Some (_extract_features (name candidate) (attributes candidate)) ∧
  ∀ row, row ∈ clustering_features candidate entities →
    ∃ len words email phone address count,
      row = [len; words; email; phone; address; count] ∧
      0 ≤ words ≤ len ∧ 0 ≤ email ≤ 1 ∧ 0 ≤ phone ≤ 1 ∧ 0 ≤ address ≤ 1 ∧
      0 ≤ count.
Proof.
  unfold clustering_features. split_and!.
  - rewrite length_app, length_fmap. simpl. lia.
  - apply last_snoc.
  - assert (Hrow : ∀ nm attrs,
      ∃ len words email phone address count,
        _extract_features nm attrs = [len; words; email; phone; address; count] ∧
        0 ≤ words ≤ len ∧ 0 ≤ email ≤ 1 ∧ 0 ≤ phone ≤ 1 ∧ 0 ≤ address ≤ 1 ∧
        0 ≤ count).
    { intros nm attrs. unfold _extract_features. do 6 eexists.
      split; [reflexivity|]. unfold Py.split_len, Py.len.
      pose proof (count_words_range false nm).
      pose proof (has_attr_range attrs "email").
      pose proof (has_attr_range attrs "phone").
      pose proof (has_attr_range attrs "address").
      split_and!; lia. }
    intros row [Hin | ->%list_elem_of_singleton]%elem_of_app; [|apply Hrow].
    apply list_elem_of_fmap in Hin as (e & -> & _). apply Hrow.
Qed.

(** ** What the outcome says *)

Lemma build_candidate_fields env data method w candidate w0 :
  build_candidate env data method w = (Ok candidate, w0) →
  ed_name data = Some (name candidate) ∧
  attributes candidate = default ∅ (ed_attributes data).
Proof.
  unfold build_candidate, bind, uuid4, EntityType.
  destruct (ed_name data) as [nm|]; [|done].
  destruct (ed_entity_type data) as [raw|]; [|done]. simpl.
  destruct (existsb (String.eqb raw) (entity_types env)); [|done]. simpl.
  destruct (needs_embedding method).
  - destruct (_generate_embedding env _ _) as [[emb|ex] w1]; [|done].
    by intros [= <- _].
  - by intros [= <- _].
Qed.

Lemma sorted_below_threshold (first : EntityMatch) (rest : list EntityMatch) :
  StronglySorted (desc confidence_score) (first :: rest) →
  below_threshold first → Forall below_threshold (first :: rest).
Proof.
  intros Hs Hf. apply StronglySorted_inv in Hs as [_ Hall].
  constructor; [done|]. eapply Forall_impl; [exact Hall|].
  intros m Hm. unfold desc in Hm. unfold below_threshold in *.
  by eapply Qle_lt_trans.
Qed.

Lemma Forall_take {A} (P : A → Prop) (n : nat) (l : list A) :
  Forall P l → Forall P (take n l).
Proof.
  intros H. rewrite Forall_forall in *. intros x Hx. apply H. by eapply take_elem.
Qed.

Lemma decide_outcome_profile env data candidate tenant cell create matches w :
  StronglySorted (desc confidence_score) matches →
  match (decide_outcome env data candidate tenant cell create matches w).1 with
  | Ok (Matched e c _ alts) =>
      (similarity_threshold <= c)%Q ∧ (length alts <= 4)%nat ∧
      pe_tenant_id e = tenant ∧ pe_cell_id e = cell
  | Ok (Created e c alts) =>
      c = 1%Q ∧ (length alts <= 5)%nat ∧ Forall below_threshold alts ∧
      pe_name e = name candidate ∧ pe_attributes e = attributes candidate
  | Ok (NoMatch alts) => (length alts <= 5)%nat ∧ Forall below_threshold alts
  | _ => True
  end.
Proof.
  intros Hsorted.
  assert (Hno : Forall below_threshold matches →
    match (no_good_match candidate tenant cell create matches w).1 with
    | Ok (Matched e c _ alts) =>
        (similarity_threshold <= c)%Q ∧ (length alts <= 4)%nat ∧
        pe_tenant_id e = tenant ∧ pe_cell_id e = cell
    | Ok (Created e c alts) =>
        c = 1%Q ∧ (length alts <= 5)%nat ∧ Forall below_threshold alts ∧
        pe_name e = name candidate ∧ pe_attributes e = attributes candidate
    | Ok (NoMatch alts) => (length alts <= 5)%nat ∧ Forall below_threshold alts
    | _ => True
    end).
  { intros Hall. rewrite no_good_match_run.
    destruct create; simpl; rewrite length_take;
      split_and!; try done; try lia; by apply Forall_take. }
  unfold decide_outcome. destruct matches as [|first rest]; [by apply Hno|].
  rewrite (max_by_sorted _ _ _ Hsorted).
  destruct (Qle_bool similarity_threshold (confidence_score first)) eqn:E.
  - apply Qle_bool_iff in E. unfold bind. rewrite merge_entity_data_run.
    destruct (List.filter _ (w_store w)); simpl; [done|].
    destruct (merge_attributes env _ _); simpl; [|done].
    rewrite length_take. split_and!; try done. lia.
  - apply Qle_bool_false in E. apply Hno. by apply sorted_below_threshold.
Qed.

(** X18: what an outcome guarantees.  A Matched outcome has a confidence of
    at least 0.85, at most four alternatives and an entity of the request's
    tenant and cell.  A Created outcome has confidence 1 and an entity with
    the observed name and attributes; it and a NoMatch outcome list at most
    five alternatives, every one of them below 0.85. *)
Theorem outcome_profile (env : Env) (data : EntityData) (tenant cell : string)
    (method : MatchMethod) (create_if_not_found : bool) (w : World) :
  match (resolve_entity env data tenant cell method create_if_not_found w).1 with
  | Matched e c _ alts =>
      (similarity_threshold <= c)%Q ∧ (length alts <= 4)%nat ∧
      pe_tenant_id e = tenant ∧ pe_cell_id e = cell
  | Created e c alts =>
      c = 1%Q ∧ (length alts <= 5)%nat ∧ Forall below_threshold alts ∧
      ed_name data = Some (pe_name e) ∧
      pe_attributes e = default ∅ (ed_attributes data)
  | NoMatch alts => (length alts <= 5)%nat ∧ Forall below_threshold alts
  | Error _ => True
  end.
Proof.
  unfold resolve_entity, resolve_entity_try, bind.
  destruct (build_candidate env data method w) as [[candidate|ex] w0] eqn:Hb; [|done].
  destruct (build_candidate_fields _ _ _ _ _ _ Hb) as [Hname Hattrs].
  destruct (_find_matches env candidate tenant cell method w0) as [[matches|ex] w1]
    eqn:Hfind; [|done].
  pose proof (find_matches_sorted _ _ _ _ _ _ _ _ Hfind) as Hsorted.
  pose proof (decide_outcome_profile env data candidate tenant cell
                create_if_not_found matches w1 Hsorted) as H.
  destruct (decide_outcome env data candidate tenant cell create_if_not_found
              matches w1) as [[[]|ex'] w2]; simpl in *; try done.
  destruct H as (? & ? & ? & Hn & Ha). split_and!; try done; congruence.
Qed.

(** ** Reading back what a merge wrote *)

Lemma decide_matched_found env data candidate tenant cell create matches w e c m alts w' :
  decide_outcome env data candidate tenant cell create matches w
    = (Ok (Matched e c m alts), w') →
  ∃ x, x ∈ w_store w ∧ by_id_scope (pe_id e) tenant cell x = true.
Proof.
  unfold decide_outcome. destruct matches as [|first rest].
  { rewrite no_good_match_run. by destruct create. }
  destruct (Qle_bool _ _).
  2:{ rewrite no_good_match_run. by destruct create. }
  unfold bind. rewrite merge_entity_data_run.
  destruct (List.filter _ (w_store w)) as [|x xs] eqn:Hf; [done|].
  destruct (merge_attributes env _ _); [|done].
  intros [= <- _ _ _ _]. exists x. apply filter_elem. cbn [pe_id]. rewrite Hf.
  apply elem_of_cons. by left.
Qed.

(** X19: a merge can be read back.  After a Matched outcome the store holds
    at least one entity with the returned id in the request's tenant and
    cell, every such entity holds exactly the returned attributes, and these
    contain every attribute key of the observation. *)
Theorem matched_attributes_are_stored (env : Env) (data : EntityData)
    (tenant cell : string) (method : MatchMethod) (create_if_not_found : bool)
    (w : World) (e : PersistedEntity) (c : Q) (m : MatchMethod)
    (alts : list EntityMatch) (w' : World) :
  resolve_entity env data tenant cell method create_if_not_found w
    = (Matched e c m alts, w') →
  (∃ x, x ∈ w_store w' ∧ by_id_scope (pe_id e) tenant cell x = true) ∧
  (∀ x, x ∈ w_store w' → by_id_scope (pe_id e) tenant cell x = true →
        pe_attributes x = pe_attributes e) ∧
  dom (default ∅ (ed_attributes data)) ⊆ dom (pe_attributes e).
Proof.
  intros Hrun.
  pose proof (resolve_entity_store env data tenant cell method create_if_not_found w)
    as Hstore.
  rewrite Hrun in Hstore.
  assert (Hfound : (∃ x, x ∈ w_store w ∧ by_id_scope (pe_id e) tenant cell x = true) ∧
                   dom (default ∅ (ed_attributes data)) ⊆ dom (pe_attributes e)).
  { revert Hrun. unfold resolve_entity, resolve_entity_try, bind.
    pose proof (keeps_store_build_candidate env data method w) as H0.
    destruct (build_candidate env data method w) as [[candidate|ex] w0]; [|done].
    pose proof (keeps_store_find_matches env candidate tenant cell method w0) as H1.
    destruct (_find_matches env candidate tenant cell method w0) as [[matches|ex] w1];
      [|done].
    destruct (decide_outcome env data candidate tenant cell create_if_not_found
                matches w1) as [[o|ex] w2] eqn:Hd; [|done].
    intros [= -> ->]. simpl in *. split.
    - destruct (decide_matched_found _ _ _ _ _ _ _ _ _ _ _ _ _ Hd) as (x & Hx & Hp).
      exists x. split; [congruence | done].
    - revert Hd. unfold decide_outcome. destruct matches as [|first rest].
      { rewrite no_good_match_run. by destruct create_if_not_found. }
      destruct (Qle_bool _ _).
      2:{ rewrite no_good_match_run. by destruct create_if_not_found. }
      unfold bind. rewrite merge_entity_data_run.
      destruct (List.filter _ (w_store w1)) as [|x xs]; [done|].
      destruct (merge_attributes env _ _) as [merged|ex] eqn:Hm; [|done].
      intros [= <- _ _ _ _]. simpl.
      apply elem_of_subseteq. intros k Hk.
      apply elem_of_dom. apply elem_of_dom in Hk as [v Hv].
      rewrite (merge_attributes_lookup _ _ _ _ _ Hm), Hv. unfold merged_value.
      destruct (pe_attributes x !! k) as [old|]; [|eauto].
      destruct (negb (Py.truthy old)); [eauto|]. destruct v, old; eauto. }
  destruct Hfound as [(x & Hx & Hp) Hdom]. split_and!; [| |done].
  - exists (with_attributes (pe_id e) tenant cell (pe_attributes e) x).
    rewrite Hstore. split; [by apply list_elem_of_fmap_2|].
    unfold with_attributes. rewrite Hp. apply by_id_scope_true in Hp.
    apply by_id_scope_true. done.
  - intros y Hy Hpy. rewrite Hstore in Hy.
    apply list_elem_of_fmap in Hy as (z & -> & _).
    unfold with_attributes in *.
    destruct (by_id_scope (pe_id e) tenant cell z) eqn:Hz; [done|]. congruence.
Qed.

Lemma matched_attributes_are_stored_witness :
  (∃ x, x ∈ w_store (resolve_entity stub_env attributed_data "t-1" "c-1" EXACT true
                        attributed_world).2 ∧
        by_id_scope "e-1" "t-1" "c-1" x = true) ∧
  (∀ x, x ∈ w_store (resolve_entity stub_env attributed_data "t-1" "c-1" EXACT true
                        attributed_world).2 →
        by_id_scope "e-1" "t-1" "c-1" x = true →
        pe_attributes x = merged_attrs) ∧
  dom observed_attrs ⊆ dom merged_attrs.
Proof.
  apply (matched_attributes_are_stored stub_env attributed_data "t-1" "c-1" EXACT true
           attributed_world
           (mkEntity "e-1" "Acme Corp" "organization" merged_attrs "t-1" "c-1")
           1 EXACT []
           (resolve_entity stub_env attributed_data "t-1" "c-1" EXACT true
              attributed_world).2).
  vm_compute; reflexivity.
Defined.

(** ** An observation the store already holds *)

Lemma exact_matches_sorted candidate (rows : list PersistedEntity) :
  StronglySorted (desc confidence_score) (exact_match_of candidate <$> rows).
Proof.
  induction rows as [|r rows IH]; [constructor|].
  rewrite fmap_cons. constructor; [done|].
  apply Forall_fmap, Forall_true. intros x. unfold desc. simpl. done.
Qed.

(** X20: with the exact method, and with no dict or nested list in the
    attribute lists of the store and of the observation, an observation
    whose name and type the store already holds in the request's tenant and
    cell is Matched, with confidence 1, to the first such entity that the
    query returns; the other rows, up to four, are the alternatives, and
    nothing is created. *)
Theorem exact_hit_is_matched (env : Env) (data : EntityData) (tenant cell : string)
    (create_if_not_found : bool) (w : World) (nm raw : string)
    (r : PersistedEntity) (rs : list PersistedEntity) :
  hashable_store w = true →
  hashable_lists (default ∅ (ed_attributes data)) = true →
  ed_name data = Some nm →
  ed_entity_type data = Some raw →
  raw ∈ entity_types env →
  take 10 (List.filter (by_name_type_scope nm raw tenant cell) (w_store w)) = r :: rs →
  ∃ e alts w',
    resolve_entity env data tenant cell EXACT create_if_not_found w
      = (Matched e 1 EXACT alts, w') ∧
    pe_id e = pe_id r ∧
    matched_entity_id <$> alts = pe_id <$> take 4 rs ∧
    length (w_store w') = length (w_store w).
Proof.
  intros Hstore Hdata Hn Ht Hv Hrows.
  assert (Hvalid : existsb (String.eqb raw) (entity_types env) = true).
  { apply existsb_exists. exists raw. split; [by apply list_elem_of_In|].
    apply String.eqb_refl. }
  rewrite (resolve_exact_unfold _ _ _ _ _ _ nm raw) by done. cbv zeta.
  rewrite Hrows.
  set (candidate := mkCandidate _ nm raw _ None _).
  rewrite sort_desc_sorted_id by apply exact_matches_sorted.
  pose proof (exact_matches_sorted candidate (r :: rs)) as Hsorted.
  rewrite fmap_cons in Hsorted |- *. unfold decide_outcome.
  rewrite (max_by_sorted _ _ _ Hsorted).
  change (Qle_bool similarity_threshold (confidence_score (exact_match_of candidate r)))
    with true. cbv iota.
  unfold bind. rewrite merge_entity_data_run.
  assert (Hr : r ∈ List.filter (by_id_scope (pe_id r) tenant cell) (w_store w)).
  { assert (Hin : r ∈ take 10 (List.filter (by_name_type_scope nm raw tenant cell)
                                 (w_store w)))
      by (rewrite Hrows; apply elem_of_cons; by left).
    apply take_elem, filter_elem in Hin as [Hin Hp].
    apply by_name_type_scope_true in Hp as (_ & _ & Hte & Hce).
    apply filter_elem. split; [done|]. by apply by_id_scope_true. }
  change (w_store (logged StoreQuery (uuid_spent w))) with (w_store w).
  change (matched_entity_id (exact_match_of candidate r)) with (pe_id r).
  destruct (List.filter (by_id_scope (pe_id r) tenant cell) (w_store w)) as [|x xs]
    eqn:Hf.
  { by apply elem_of_nil in Hr. }
  assert (Hx : x ∈ w_store w).
  { apply (filter_elem (by_id_scope (pe_id r) tenant cell)). rewrite Hf.
    apply elem_of_cons. by left. }
  destruct (merge_attributes_returns env (pe_attributes x)
              (default ∅ (ed_attributes data))) as [merged Hm].
  { intros k. apply hashable_lists_merge; [by eapply hashable_store_elem | done]. }
  rewrite Hm.
  eexists _, _, _. split; [reflexivity|]. split; [reflexivity|]. split.
  - rewrite <- fmap_take, <- !list_fmap_compose. done.
  - exact (length_fmap _ _).
Qed.

Lemma exact_hit_is_matched_witness :
  ∃ e alts w',
    resolve_entity stub_env attributed_data "t-1" "c-1" EXACT true attributed_world
      = (Matched e 1 EXACT alts, w') ∧
    pe_id e = "e-1" ∧
    matched_entity_id <$> alts = pe_id <$> take 4 [] ∧
    length (w_store w') = 1%nat.
Proof.
  apply (exact_hit_is_matched stub_env attributed_data "t-1" "c-1" true
           attributed_world "Acme Corp" "organization"
           (mkEntity "e-1" "Acme Corp" "organization" stored_attrs "t-1" "c-1") []).
  - vm_compute; reflexivity.
  - vm_compute; reflexivity.
  - reflexivity.
  - reflexivity.
  - simpl. apply elem_of_cons. right. apply elem_of_cons. by left.
  - vm_compute; reflexivity.
Defined.
